(** * The task-execution control loop of the desktop automation agent

    A shallow embedding of
    - [reasoning/decision_maker.py]   (the action grammar, [_parse_action],
      [decide_next_action], [handle_error]),
    - [reasoning/prompt_templates.py] (the parameters of the two prompts),
    - [reasoning/task_planner.py]     ([plan_task], [_parse_steps]),
    - [action/action_executor.py]     ([execute_action]),
    - [perception/screen_analyzer.py] ([analyze_current_screen], [clear_cache]),
    - [memory/context_manager.py]     (the parts the loop touches),
    - [orchestration/agent_core.py]   ([pause], [resume], [stop],
      [_agent_loop], [_process_current_task], [_execute_plan]),
    followed by the properties of the specification that concern them. *)

From Stdlib Require Import Bool Arith ZArith List String Ascii Lia.
From Stdlib Require Import DecimalString.
Import ListNotations.

Open Scope string_scope.
Open Scope Z_scope.

Set Implicit Arguments.

(** ** Python text

    Python [str] values are modelled as [string]; the model agrees with Python
    on 7-bit text ([is_ascii]), where [upper] and [lower] only move the
    letters a-z / A-Z and the white space of [strip] and [split] is the set
    below. *)

Definition code (c : ascii) : nat := nat_of_ascii c.

Definition is_ascii_char (c : ascii) : bool := (code c <? 128)%nat.

Fixpoint is_ascii (s : string) : bool :=
  match s with
  | EmptyString => true
  | String c r => is_ascii_char c && is_ascii r
  end.

(** [str.isspace] on 7-bit characters: TAB, LF, VT, FF, CR, FS, GS, RS, US
    and the blank. *)
Definition is_space (c : ascii) : bool :=
  let n := code c in
  ((9 <=? n) && (n <=? 13) || (28 <=? n) && (n <=? 32))%nat.

Definition is_upper_char (c : ascii) : bool :=
  let n := code c in ((65 <=? n) && (n <=? 90))%nat.

Definition is_lower_char (c : ascii) : bool :=
  let n := code c in ((97 <=? n) && (n <=? 122))%nat.

Definition upper_char (c : ascii) : ascii :=
  if is_lower_char c then ascii_of_nat (code c - 32) else c.

Definition lower_char (c : ascii) : ascii :=
  if is_upper_char c then ascii_of_nat (code c + 32) else c.

Fixpoint map_str (f : ascii -> ascii) (s : string) : string :=
  match s with
  | EmptyString => EmptyString
  | String c r => String (f c) (map_str f r)
  end.

(** [s.upper()] and [s.lower()]. *)
Definition upper : string -> string := map_str upper_char.
Definition lower : string -> string := map_str lower_char.

Fixpoint all_chars (p : ascii -> bool) (s : string) : bool :=
  match s with
  | EmptyString => true
  | String c r => p c && all_chars p r
  end.

(** No letter of [s] is a capital. *)
Definition no_upper (s : string) : bool :=
  all_chars (fun c => negb (is_upper_char c)) s.

Definition is_empty (s : string) : bool :=
  match s with EmptyString => true | _ => false end.

Fixpoint lstrip (s : string) : string :=
  match s with
  | EmptyString => EmptyString
  | String c r => if is_space c then lstrip r else s
  end.

Fixpoint rstrip (s : string) : string :=
  match s with
  | EmptyString => EmptyString
  | String c r =>
      let r' := rstrip r in
      if is_space c && is_empty r' then EmptyString else String c r'
  end.

(** [s.strip()]. *)
Definition strip (s : string) : string := rstrip (lstrip s).

(** [s.split()]: the maximal runs of non-blank characters, in order. *)
Fixpoint split_from (cur : string) (s : string) : list string :=
  match s with
  | EmptyString => if is_empty cur then [] else [cur]
  | String c r =>
      if is_space c
      then (if is_empty cur then split_from EmptyString r
            else cur :: split_from EmptyString r)
      else split_from (cur ++ String c EmptyString) r
  end.

Definition split : string -> list string := split_from EmptyString.

(** [s.split(sep)] for a one-character separator: empty pieces are kept. *)
Fixpoint split_on_from (sep : ascii) (cur : string) (s : string) : list string :=
  match s with
  | EmptyString => [cur]
  | String c r =>
      if Ascii.eqb c sep then cur :: split_on_from sep EmptyString r
      else split_on_from sep (cur ++ String c EmptyString) r
  end.

Definition split_on (sep : ascii) : string -> list string :=
  split_on_from sep EmptyString.

(** [s.startswith(p)]. *)
Definition startswith (s p : string) : bool := prefix p s.

Fixpoint last_char (s : string) : option ascii :=
  match s with
  | EmptyString => None
  | String c EmptyString => Some c
  | String _ r => last_char r
  end.

(** [s.endswith(c)] for a one-character suffix. *)
Definition endswith_char (s : string) (c : ascii) : bool :=
  match last_char s with
  | Some d => Ascii.eqb d c
  | None => false
  end.

(** [s[k:]]. *)
Fixpoint drop (k : nat) (s : string) : string :=
  match k, s with
  | O, _ => s
  | S k', String _ r => drop k' r
  | S _, EmptyString => EmptyString
  end.

(** [s[:k]]. *)
Fixpoint take (k : nat) (s : string) : string :=
  match k, s with
  | S k', String c r => String c (take k' r)
  | _, _ => EmptyString
  end.

Fixpoint drop_last (s : string) : string :=
  match s with
  | EmptyString => EmptyString
  | String _ EmptyString => EmptyString
  | String c r => String c (drop_last r)
  end.

(** [s[1:-1]]. *)
Definition strip_ends (s : string) : string := drop_last (drop 1 s).

(** [sub in s]. *)
Fixpoint contains (sub s : string) : bool :=
  prefix sub s ||
  match s with
  | EmptyString => false
  | String _ r => contains sub r
  end.

Definition dquote : ascii := ascii_of_nat 34.

(** [s.startswith('"') and s.endswith('"')]. *)
Definition is_quoted (s : string) : bool :=
  startswith s (String dquote EmptyString) && endswith_char s dquote.

(** [s[1:-1]] when [s] is quoted, [s] itself otherwise. *)
Definition unquote (s : string) : string :=
  if is_quoted s then strip_ends s else s.

Definition is_digit (c : ascii) : bool :=
  let n := code c in ((48 <=? n) && (n <=? 57))%nat.

(** The digits of [int(s)]: decimal digits, single underscores allowed
    between two digits. *)
Fixpoint int_digits (acc : Z) (after_digit : bool) (s : string) : option Z :=
  match s with
  | EmptyString => if after_digit then Some acc else None
  | String c r =>
      if is_digit c
      then int_digits (10 * acc + Z.of_nat (code c - 48)) true r
      else if Ascii.eqb c "_"%char
           then (if after_digit then int_digits acc false r else None)
           else None
  end.

(** [int(s)] in base 10; [None] stands for [ValueError]. *)
Definition py_int (s : string) : option Z :=
  match strip s with
  | String "+"%char r => int_digits 0 false r
  | String "-"%char r => option_map Z.opp (int_digits 0 false r)
  | t => int_digits 0 false t
  end.

(** [str(z)] for an integer. *)
Definition str_of_int (z : Z) : string := NilZero.string_of_int (Z.to_int z).

(** [f'"{s}"'], the text [s] between double quotes. *)
Definition quoted (s : string) : string :=
  String dquote (s ++ String dquote EmptyString).

(** What a call returns: a value, or an exception (a subclass of
    [Exception]) shown by its message. *)
Inductive Outcome (A : Type) : Type :=
| Ok (a : A)
| Raise (e : string).

Arguments Ok {A} a.
Arguments Raise {A} e.

(** The three parts of a run: its outcome, the state it leaves and its
    trace. *)
Definition result_of {A S T : Type} (r : A * S * T) : A := fst (fst r).

Definition state_of {A S T : Type} (r : A * S * T) : S := snd (fst r).

Definition trace_of {A S T : Type} (r : A * S * T) : T := snd r.

(** Python's floating-point numbers and the two built-ins that produce and
    print them are parameters of the model: [py_float s] is [float(s)]
    ([None] for [ValueError]) and [str_of_float] is [str]. *)
Class PyFloat (F : Type) : Type := mkPyFloat {
  py_float : string -> option F;
  str_of_float : F -> string
}.

Section Agent.

Context {F : Type} {PF : PyFloat F}.

(** A duration is the integer default [2] or a parsed float. *)
Inductive Num : Type :=
| NInt (z : Z)
| NFloat (f : F).

Definition str_of_num (n : Num) : string :=
  match n with
  | NInt z => str_of_int z
  | NFloat f => str_of_float f
  end.

(** ** Actions

    The action dictionary, one optional field per key the code writes or
    reads; [None] is an absent key. *)
Record Action : Type := mkAction {
  a_type : option string;
  a_x : option Z;
  a_y : option Z;
  a_text : option string;
  a_key : option string;
  a_duration : option Num;
  a_direction : option string;
  a_clicks : option Z;
  a_cmd : option string;
  a_app : option string;
  a_start_x : option Z;
  a_start_y : option Z;
  a_end_x : option Z;
  a_end_y : option Z;
  a_raw : option string
}.

(** [{"type": t}] *)
Definition typed (t : string) : Action :=
  {| a_type := Some t; a_x := None; a_y := None; a_text := None;
     a_key := None; a_duration := None; a_direction := None;
     a_clicks := None; a_cmd := None; a_app := None; a_start_x := None;
     a_start_y := None; a_end_x := None; a_end_y := None; a_raw := None |}.

(** [{"type": "click", "x": x, "y": y}] *)
Definition click_action (x y : Z) : Action :=
  {| a_type := Some "click"; a_x := Some x; a_y := Some y; a_text := None;
     a_key := None; a_duration := None; a_direction := None;
     a_clicks := None; a_cmd := None; a_app := None; a_start_x := None;
     a_start_y := None; a_end_x := None; a_end_y := None; a_raw := None |}.

(** [{"type": "type", "text": text}] *)
Definition type_action (text : string) : Action :=
  {| a_type := Some "type"; a_x := None; a_y := None; a_text := Some text;
     a_key := None; a_duration := None; a_direction := None;
     a_clicks := None; a_cmd := None; a_app := None; a_start_x := None;
     a_start_y := None; a_end_x := None; a_end_y := None; a_raw := None |}.

(** [{"type": "press", "key": key}] *)
Definition press_action (key : string) : Action :=
  {| a_type := Some "press"; a_x := None; a_y := None; a_text := None;
     a_key := Some key; a_duration := None; a_direction := None;
     a_clicks := None; a_cmd := None; a_app := None; a_start_x := None;
     a_start_y := None; a_end_x := None; a_end_y := None; a_raw := None |}.

(** [{"type": "wait", "duration": duration}] *)
Definition wait_action (duration : Num) : Action :=
  {| a_type := Some "wait"; a_x := None; a_y := None; a_text := None;
     a_key := None; a_duration := Some duration; a_direction := None;
     a_clicks := None; a_cmd := None; a_app := None; a_start_x := None;
     a_start_y := None; a_end_x := None; a_end_y := None; a_raw := None |}.

(** [{"type": "scroll", "direction": direction}] *)
Definition scroll_action (direction : string) : Action :=
  {| a_type := Some "scroll"; a_x := None; a_y := None; a_text := None;
     a_key := None; a_duration := None; a_direction := Some direction;
     a_clicks := None; a_cmd := None; a_app := None; a_start_x := None;
     a_start_y := None; a_end_x := None; a_end_y := None; a_raw := None |}.

(** [{"type": "run", "cmd": cmd}] *)
Definition run_action (cmd : string) : Action :=
  {| a_type := Some "run"; a_x := None; a_y := None; a_text := None;
     a_key := None; a_duration := None; a_direction := None;
     a_clicks := None; a_cmd := Some cmd; a_app := None; a_start_x := None;
     a_start_y := None; a_end_x := None; a_end_y := None; a_raw := None |}.

(** [{"type": "launch", "app": app}] *)
Definition launch_action (app : string) : Action :=
  {| a_type := Some "launch"; a_x := None; a_y := None; a_text := None;
     a_key := None; a_duration := None; a_direction := None;
     a_clicks := None; a_cmd := None; a_app := Some app; a_start_x := None;
     a_start_y := None; a_end_x := None; a_end_y := None; a_raw := None |}.

(** [{"type": "unknown", "raw": raw}] *)
Definition unknown_action (raw : string) : Action :=
  {| a_type := Some "unknown"; a_x := None; a_y := None; a_text := None;
     a_key := None; a_duration := None; a_direction := None;
     a_clicks := None; a_cmd := None; a_app := None; a_start_x := None;
     a_start_y := None; a_end_x := None; a_end_y := None; a_raw := Some raw |}.

(** [float(s.split()[1]) if len(s.split()) > 1 else 2], with [2] again when
    the conversion raises. *)
Definition wait_duration (s : string) : Num :=
  match split s with
  | _ :: tok :: _ =>
      match py_float tok with
      | Some f => NFloat f
      | None => NInt 2
      end
  | _ => NInt 2
  end.

(** ** The action grammar: [DecisionMaker._parse_action] *)
Definition _parse_action (action_text : string) : Action :=
  let action := upper (strip action_text) in
  if startswith action "CLICK" then
    match split action with
    | _ :: p1 :: p2 :: _ =>
        match py_int p1, py_int p2 with
        | Some x, Some y => click_action x y
        | _, _ => unknown_action action_text
        end
    | _ => unknown_action action_text
    end
  else if startswith action "TYPE" then
    let text_match := strip (drop 4 action) in
    if is_quoted text_match
    then type_action (strip_ends text_match)
    else type_action text_match
  else if startswith action "PRESS" then
    let key_match := strip (drop 5 action) in
    if is_quoted key_match
    then press_action (lower (strip_ends key_match))
    else press_action (lower key_match)
  else if startswith action "WAIT" then
    wait_action (wait_duration action)
  else if startswith action "SCROLL" then
    scroll_action (if contains "UP" action then "up" else "down")
  else if startswith action "RUN" then
    run_action (unquote (strip (drop 3 action)))
  else if startswith action "LAUNCH" then
    let app := unquote (strip (drop 6 action)) in
    if contains "CHROME" (upper app)
    then typed "launch_chrome"
    else launch_action app
  else unknown_action action_text.

(** ** Plans, observations and the effects of the agent *)

(** A step of a plan: [{'number', 'description', 'details'}]. *)
Record Step : Type := mkStep {
  number : Z;
  description : string;
  details : list string
}.

(** The screenshot type of the capture backend. *)
Context {Image : Type}.

(** An entry of [extract_text_with_positions]. *)
Record TextElement : Type := mkTextElement {
  te_text : string;
  te_x : Z;
  te_y : Z;
  te_width : Z;
  te_height : Z;
  te_confidence : Z
}.

(** An entry of [detect_buttons]. *)
Record Button : Type := mkButton {
  b_x : Z;
  b_y : Z;
  b_width : Z;
  b_height : Z
}.

(** The analysis dictionary built by [analyze_current_screen]. *)
Record Analysis : Type := mkAnalysis {
  text_elements : list TextElement;
  buttons : list Button;
  raw_text : string;
  screenshot : Image
}.

(** The prompts of [PromptTemplates], by template and arguments. *)
Inductive Prompt : Type :=
| ActionDecision (task : option string) (current_step screen : string)
| ErrorHandling (task : option string) (failed_action : Action) (screen : string).

(** The calls the owner of the agent makes from its own thread. *)
Inductive OwnerCall : Type :=
| CallPause
| CallResume
| CallStop.

(** The world outside the agent: the display, the input devices, the
    language model and the thread that owns the agent. *)
Context {World : Type}.

(** The collaborators, each a function of the world. The mouse, keyboard
    and launcher entries are the methods of [MouseController],
    [KeyboardController] and [AppLauncher] that the executor and the loop
    call; [save_screenshot] is the capture-and-save of the screenshot arm
    and answers the file name; [short_sleep] is a [time.sleep] of a fixed
    positive length; [owner_calls] gives the calls the owning thread has
    made since they were last looked at. *)
Class Host : Type := mkHost {
  mouse_click : option Z -> option Z -> World -> Outcome bool * World;
  mouse_move_to : Z -> Z -> World -> Outcome bool * World;
  mouse_scroll : string -> Z -> World -> Outcome unit * World;
  mouse_double_click : option Z -> option Z -> World -> Outcome unit * World;
  mouse_right_click : option Z -> option Z -> World -> Outcome unit * World;
  mouse_drag_to :
    option Z -> option Z -> option Z -> option Z -> World -> Outcome unit * World;
  pyautogui_position : World -> Outcome (Z * Z) * World;
  keyboard_type_text : string -> World -> Outcome unit * World;
  keyboard_press_key : string -> World -> Outcome unit * World;
  keyboard_hotkey : list string -> World -> Outcome unit * World;
  time_sleep : Num -> World -> Outcome unit * World;
  subprocess_Popen : option string -> World -> Outcome unit * World;
  launcher_launch_app : string -> World -> Outcome bool * World;
  launcher_launch_chrome : World -> Outcome bool * World;
  save_screenshot : World -> Outcome string * World;
  capture_full_screen : World -> Outcome Image * World;
  extract_text : Image -> Outcome string;
  extract_text_with_positions : Image -> Outcome (list TextElement);
  detect_buttons : Image -> Outcome (list Button);
  ollama_generate : Prompt -> World -> Outcome string * World;
  planner_plan_task : option string -> string -> World -> Outcome (list Step) * World;
  short_sleep : World -> World;
  owner_calls : World -> list OwnerCall * World
}.

Context {host : Host}.

(** The calls into the host, as they appear in the trace of a run. *)
Inductive Call : Type :=
| CClick (x y : option Z)
| CMoveTo (x y : Z)
| CScroll (direction : string) (clicks : Z)
| CDoubleClick (x y : option Z)
| CRightClick (x y : option Z)
| CDragTo (x1 y1 x2 y2 : option Z)
| CPosition
| CTypeText (text : string)
| CPressKey (key : string)
| CHotkey (keys : list string)
| CSleep (duration : Num)
| CPopen (cmd : option string)
| CLaunchApp (app : string)
| CLaunchChrome
| CScreenshot
| CGenerate (p : Prompt)
| CPlanTask.

(** The three places that call [clear_cache]. *)
Inductive ClearSite : Type :=
| BeforePlanning
| BeforeStep
| AfterAction.

(** The log lines of the loop that the properties refer to. *)
Inductive LogLine : Type :=
| LStartingStep (idx total : nat)
| LInterrupted
| LStepFailedContinuing (idx : nat)
| LAllFallbackFailed
| LAborting
| LPlanExecuted
| LNoPlan
| LEmptyPlan
| LErrorProcessing (e : string).

(** The trace of a run: host calls (with whether they returned), captures,
    cache invalidations, the owner's calls taking effect, the outcome of
    each detail line and of each dispatched decision, and log lines. *)
Inductive Event : Type :=
| EvCall (c : Call) (returned : bool)
| EvCapture
| EvClear (site : ClearSite)
| EvOwner (c : OwnerCall)
| EvDetail (detail : string) (succeeded : bool)
| EvDispatch (idx : nat) (a : Action) (success : bool)
| EvLog (l : LogLine).

(** ** The state of the agent *)

(** [ContextManager.task_status]. *)
Inductive TaskStatus : Type :=
| StatusIdle
| StatusInProgress
| StatusCompleted
| StatusFailed.

(** An entry of [ContextManager.action_history]. *)
Record ActionEntry : Type := mkActionEntry {
  ae_action : Action;
  ae_success : bool;
  ae_result : string
}.

(** The fields of [ContextManager] that the loop reads or writes. *)
Record ContextManager : Type := mkContext {
  task_status : TaskStatus;
  current_plan : list Step;
  current_step_index : Z;
  screen_history : list Analysis;
  action_history : list ActionEntry
}.

(** The events of [HistoryTracker.session_log] written by the loop. *)
Inductive SessionEvent : Type :=
| SessionAction (a : Action) (success : bool) (result : string)
| SessionTaskEnd (success : bool).

(** [AgentCore], with the single cache slot of its [ScreenAnalyzer], its
    [ContextManager], the session log of its [HistoryTracker], and the world
    it acts on. *)
Record AgentCore : Type := mkAgent {
  is_running : bool;
  is_paused : bool;
  task_queue : list string;
  current_task : option string;
  _cached_analysis : option Analysis;
  context : ContextManager;
  session_log : list SessionEvent;
  world : World
}.

Definition with_world (w : World) (s : AgentCore) : AgentCore :=
  mkAgent (is_running s) (is_paused s) (task_queue s) (current_task s)
    (_cached_analysis s) (context s) (session_log s) w.

Definition with_cache (c : option Analysis) (s : AgentCore) : AgentCore :=
  mkAgent (is_running s) (is_paused s) (task_queue s) (current_task s)
    c (context s) (session_log s) (world s).

Definition with_context (c : ContextManager) (s : AgentCore) : AgentCore :=
  mkAgent (is_running s) (is_paused s) (task_queue s) (current_task s)
    (_cached_analysis s) c (session_log s) (world s).

Definition with_session_log (l : list SessionEvent) (s : AgentCore) : AgentCore :=
  mkAgent (is_running s) (is_paused s) (task_queue s) (current_task s)
    (_cached_analysis s) (context s) l (world s).

Definition with_running (b : bool) (s : AgentCore) : AgentCore :=
  mkAgent b (is_paused s) (task_queue s) (current_task s)
    (_cached_analysis s) (context s) (session_log s) (world s).

Definition with_paused (b : bool) (s : AgentCore) : AgentCore :=
  mkAgent (is_running s) b (task_queue s) (current_task s)
    (_cached_analysis s) (context s) (session_log s) (world s).

Definition with_task (q : list string) (t : option string) (s : AgentCore)
  : AgentCore :=
  mkAgent (is_running s) (is_paused s) q t
    (_cached_analysis s) (context s) (session_log s) (world s).

(** ** Computations of the agent

    A computation runs from a state of the agent to an outcome, the state
    it leaves (also when it raises) and the events it produced. *)
Definition M (A : Type) : Type := AgentCore -> Outcome A * AgentCore * list Event.

Definition ret {A : Type} (a : A) : M A := fun s => (Ok a, s, []).

Definition bind {A B : Type} (m : M A) (k : A -> M B) : M B :=
  fun s =>
    match m s with
    | (Ok a, s1, t1) =>
        match k a s1 with
        | (r, s2, t2) => (r, s2, (t1 ++ t2)%list)
        end
    | (Raise e, s1, t1) => (Raise e, s1, t1)
    end.

(** [try: m except Exception as e: h e]. *)
Definition try_except {A : Type} (m : M A) (h : string -> M A) : M A :=
  fun s =>
    match m s with
    | (Ok a, s1, t1) => (Ok a, s1, t1)
    | (Raise e, s1, t1) =>
        match h e s1 with
        | (r, s2, t2) => (r, s2, (t1 ++ t2)%list)
        end
    end.

Notation "x <- m ;; k" := (bind m (fun x => k))
  (at level 61, m at next level, right associativity).
Notation "m ;; k" := (bind m (fun _ => k))
  (at level 61, right associativity).

Definition get : M AgentCore := fun s => (Ok s, s, []).

Definition modify (f : AgentCore -> AgentCore) : M unit :=
  fun s => (Ok tt, f s, []).

Definition emit (e : Event) : M unit := fun s => (Ok tt, s, [e]).

Definition log (l : LogLine) : M unit := emit (EvLog l).

Definition throw {A : Type} (e : string) : M A := fun s => (Raise e, s, []).

Definition lift {A : Type} (o : Outcome A) : M A := fun s => (o, s, []).

Definition returned {A : Type} (o : Outcome A) : bool :=
  match o with Ok _ => true | Raise _ => false end.

(** A call into the host: it acts on the world and leaves one [EvCall]. *)
Definition call {A : Type} (c : Call) (f : World -> Outcome A * World) : M A :=
  fun s =>
    match f (world s) with
    | (r, w) => (r, with_world w s, [EvCall c (returned r)])
    end.

(** ** The perception cache: [ScreenAnalyzer] *)

(** [clear_cache]; the site is the caller, kept for the trace. *)
Definition clear_cache (site : ClearSite) : M unit :=
  fun s => (Ok tt, with_cache None s, [EvClear site]).

(** [self.screen_capture.capture_full_screen()], the screenshot standing
    for its array form ([to_numpy]) as well. *)
Definition capture : M Image :=
  fun s =>
    match capture_full_screen (world s) with
    | (r, w) => (r, with_world w s, [EvCapture])
    end.

(** [analyze_current_screen(force_new)]. The three analyses read the same
    screenshot; their results are collected in the order of the source. *)
Definition analyze_current_screen (force_new : bool) : M Analysis :=
  s <- get ;;
  match negb force_new, _cached_analysis s with
  | true, Some cached => ret cached
  | _, _ =>
      shot <- capture ;;
      text <- lift (extract_text shot) ;;
      elements <- lift (extract_text_with_positions shot) ;;
      found <- lift (detect_buttons shot) ;;
      let analysis := mkAnalysis elements found text shot in
      modify (with_cache (Some analysis)) ;;
      ret analysis
  end.

(** ** [ContextManager] and [HistoryTracker] *)

(** [deque(maxlen=n).append(x)]. *)
Definition deque_append {A : Type} (maxlen : nat) (d : list A) (x : A) : list A :=
  let d' := (d ++ [x])%list in
  if (maxlen <? List.length d')%nat then tl d' else d'.

Definition max_history : nat := 20.

Definition add_screen (analysis : Analysis) : M unit :=
  modify (fun s =>
    let c := context s in
    with_context
      (mkContext (task_status c) (current_plan c) (current_step_index c)
         (deque_append max_history (screen_history c) analysis)
         (action_history c)) s).

Definition add_action (a : Action) (success : bool) (result : string) : M unit :=
  modify (fun s =>
    let c := context s in
    with_context
      (mkContext (task_status c) (current_plan c) (current_step_index c)
         (screen_history c)
         (deque_append max_history (action_history c)
            (mkActionEntry a success result))) s).

(** [set_plan]: the cursor starts at [0], or [-1] for an empty plan. *)
Definition set_plan (plan : list Step) : M unit :=
  modify (fun s =>
    let c := context s in
    with_context
      (mkContext (task_status c) plan
         (match plan with [] => -1 | _ => 0 end)
         (screen_history c) (action_history c)) s).

(** [self.context.current_step_index = i]. *)
Definition set_step_index (i : Z) : M unit :=
  modify (fun s =>
    let c := context s in
    with_context
      (mkContext (task_status c) (current_plan c) i
         (screen_history c) (action_history c)) s).

Definition set_task_status (st : TaskStatus) : M unit :=
  modify (fun s =>
    let c := context s in
    with_context
      (mkContext st (current_plan c) (current_step_index c)
         (screen_history c) (action_history c)) s).

Definition set_task_completed : M unit := set_task_status StatusCompleted.

Definition set_task_failed : M unit := set_task_status StatusFailed.

Definition log_action (a : Action) (success : bool) (result : string) : M unit :=
  modify (fun s =>
    with_session_log (session_log s ++ [SessionAction a success result])%list s).

Definition log_task_completion (success : bool) : M unit :=
  modify (fun s =>
    with_session_log (session_log s ++ [SessionTaskEnd success])%list s).

(** ** [PromptTemplates] and [DecisionMaker] *)

(** A call that names its arguments. A keyword that is no parameter of the
    callee is Python's [TypeError], and so is a parameter left without an
    argument; [value] is what the callee returns when the names match. *)
Definition unexpected_keyword (params keywords : list string) : option string :=
  find (fun k => negb (existsb (String.eqb k) params)) keywords.

Definition missing_argument (params keywords : list string) : option string :=
  find (fun p => negb (existsb (String.eqb p) keywords)) params.

Definition call_by_keyword {A : Type} (name : string)
    (params keywords : list string) (value : A) : M A :=
  match unexpected_keyword params keywords with
  | Some k =>
      throw (name ++ "() got an unexpected keyword argument '" ++ k ++ "'")
  | None =>
      match missing_argument params keywords with
      | Some p =>
          throw (name ++ "() missing a required positional argument: '"
                      ++ p ++ "'")
      | None => ret value
      end
  end.

(** [get_action_decision_prompt(cls, task_description,
    current_step_description, screen_description)], called with the
    keywords [keywords]. *)
Definition get_action_decision_prompt (keywords : list string)
    (task : option string) (current_step screen : string) : M Prompt :=
  call_by_keyword "PromptTemplates.get_action_decision_prompt"
    ["task_description"; "current_step_description"; "screen_description"]
    keywords (ActionDecision task current_step screen).

(** [get_error_handling_prompt(cls, task_description, failed_action,
    screen_description)], called with the keywords [keywords]. *)
Definition get_error_handling_prompt (keywords : list string)
    (task : option string) (failed_action : Action) (screen : string)
  : M Prompt :=
  call_by_keyword "PromptTemplates.get_error_handling_prompt"
    ["task_description"; "failed_action"; "screen_description"]
    keywords (ErrorHandling task failed_action screen).

(** [decide_next_action]: it asks for its prompt with the keywords
    [task_description], [current_step] and [screen_description], and only
    then for the answer of the model. *)
Definition decide_next_action (task : option string)
    (current_step screen : string) : M Action :=
  p <- get_action_decision_prompt
         ["task_description"; "current_step"; "screen_description"]
         task current_step screen ;;
  response <- call (CGenerate p) (ollama_generate p) ;;
  ret (_parse_action (strip response)).

(** [handle_error]: its keywords are [task_description], [failed_action]
    and [screen_description]. *)
Definition handle_error (task : option string) (failed_action : Action)
    (screen : string) : M string :=
  p <- get_error_handling_prompt
         ["task_description"; "failed_action"; "screen_description"]
         task failed_action screen ;;
  call (CGenerate p) (ollama_generate p).

(** ** The action dispatcher: [ActionExecutor.execute_action] *)

Definition get_default {A : Type} (o : option A) (d : A) : A :=
  match o with Some a => a | None => d end.

(** [f"{x}"] for an integer or [None]. *)
Definition str_of_opt_int (o : option Z) : string :=
  match o with Some z => str_of_int z | None => "None" end.

(** [f"{s}"] for a string or [None]. *)
Definition str_of_opt_str (o : option string) : string :=
  match o with Some z => z | None => "None" end.

Definition point (x y : option Z) : string :=
  "(" ++ str_of_opt_int x ++ ", " ++ str_of_opt_int y ++ ")".

(** [action.get('type', '').lower()]. *)
Definition action_type (a : Action) : string :=
  lower (get_default (a_type a) EmptyString).

(** The types [execute_action] has an arm for. *)
Definition known_types : list string :=
  ["click"; "type"; "press"; "wait"; "scroll"; "double_click"; "right_click";
   "drag"; "run"; "launch"; "launch_chrome"; "screenshot"].

Definition is_known (ty : string) : bool := existsb (String.eqb ty) known_types.

(** The types whose arm calls the mouse, the keyboard or [time.sleep] and
    answers [True]. *)
Definition pointer_types : list string :=
  ["click"; "type"; "press"; "wait"; "scroll"].

(** The body of the [try] block of [execute_action]. *)
Definition dispatch (a : Action) : M (bool * string) :=
  let ty := action_type a in
  if String.eqb ty "click" then
    let x := a_x a in
    let y := a_y a in
    call (CClick x y) (mouse_click x y) ;;
    ret (true, "Clicked at " ++ point x y)
  else if String.eqb ty "type" then
    let text := get_default (a_text a) EmptyString in
    call (CTypeText text) (keyboard_type_text text) ;;
    ret (true, "Typed text: " ++ take 20 text ++
               (if (20 <? String.length text)%nat then "..." else EmptyString))
  else if String.eqb ty "press" then
    let key := get_default (a_key a) EmptyString in
    if contains "+" key then
      let keys := map strip (split_on "+"%char key) in
      call (CHotkey keys) (keyboard_hotkey keys) ;;
      ret (true, "Pressed hotkey: " ++ key)
    else
      call (CPressKey key) (keyboard_press_key key) ;;
      ret (true, "Pressed key: " ++ key)
  else if String.eqb ty "wait" then
    let duration := get_default (a_duration a) (NInt 2) in
    call (CSleep duration) (time_sleep duration) ;;
    ret (true, "Waited for " ++ str_of_num duration ++ " seconds")
  else if String.eqb ty "scroll" then
    let direction := get_default (a_direction a) "down" in
    let clicks := get_default (a_clicks a) 3 in
    call (CScroll direction clicks) (mouse_scroll direction clicks) ;;
    ret (true, "Scrolled " ++ direction ++ " " ++ str_of_int clicks ++ " clicks")
  else if String.eqb ty "double_click" then
    let x := a_x a in
    let y := a_y a in
    call (CDoubleClick x y) (mouse_double_click x y) ;;
    ret (true, "Double-clicked at " ++ point x y)
  else if String.eqb ty "right_click" then
    let x := a_x a in
    let y := a_y a in
    call (CRightClick x y) (mouse_right_click x y) ;;
    ret (true, "Right-clicked at " ++ point x y)
  else if String.eqb ty "drag" then
    let x1 := a_start_x a in
    let y1 := a_start_y a in
    let x2 := a_end_x a in
    let y2 := a_end_y a in
    call (CDragTo x1 y1 x2 y2) (mouse_drag_to x1 y1 x2 y2) ;;
    ret (true, "Dragged from " ++ point x1 y1 ++ " to " ++ point x2 y2)
  else if String.eqb ty "run" then
    let cmd := a_cmd a in
    call (CPopen cmd) (subprocess_Popen cmd) ;;
    ret (true, "Ran command: " ++ str_of_opt_str cmd)
  else if String.eqb ty "launch" then
    let app_name := get_default (a_app a) EmptyString in
    success <- call (CLaunchApp app_name) (launcher_launch_app app_name) ;;
    ret (success, if success then "Launched app: " ++ app_name
                  else "Failed to launch: " ++ app_name)
  else if String.eqb ty "launch_chrome" then
    success <- call CLaunchChrome launcher_launch_chrome ;;
    ret (success, if success then "Launched Chrome"
                  else "Failed to launch Chrome")
  else if String.eqb ty "screenshot" then
    filename <- call CScreenshot save_screenshot ;;
    ret (true, "Saved screenshot to " ++ filename)
  else
    ret (false, "Unknown action type: " ++ ty).

(** [execute_action]: the dispatch under [try ... except Exception as e]. *)
Definition execute_action (a : Action) : M (bool * string) :=
  try_except (dispatch a) (fun e => ret (false, "Error: " ++ e)).

(** ** The execution loop: [AgentCore] *)

(** The flag part of [pause], [resume] and [stop]. *)
Definition pause (s : AgentCore) : AgentCore := with_paused true s.

Definition resume (s : AgentCore) : AgentCore := with_paused false s.

Definition stop (s : AgentCore) : AgentCore := with_running false s.

Definition owner_call (s : AgentCore) (c : OwnerCall) : AgentCore :=
  match c with
  | CallPause => pause s
  | CallResume => resume s
  | CallStop => stop s
  end.

(** The calls the owning thread made since the flags were last read take
    effect before they are read again. *)
Definition poll_owner : M unit :=
  fun s =>
    match owner_calls (world s) with
    | (calls, w) =>
        (Ok tt, fold_left owner_call calls (with_world w s), map EvOwner calls)
    end.

(** The state in which the flags are read, and the events of getting
    there. *)
Definition after_owner (s : AgentCore) : AgentCore := state_of (poll_owner s).

Definition owner_events (s : AgentCore) : list Event := trace_of (poll_owner s).

(** [time.sleep(0.5)] and [time.sleep(0.1)]. *)
Definition sleep_briefly : M unit :=
  modify (fun s => with_world (short_sleep (world s)) s).

(** How an iteration of the [for] loop ends: with the next iteration (by
    [continue] or by reaching its end) or with [return b]. *)
Inductive Flow : Type :=
| Continue
| Return (b : bool).

(** A [WAIT] detail line. *)
Definition exec_wait_detail (detail : string) : M bool :=
  let duration := wait_duration detail in
  call (CSleep duration) (time_sleep duration) ;;
  ret true.

(** A [CLICK x y] detail line; the result tells whether the line set
    [step_succeeded]. *)
Definition exec_click_detail (detail : string) : M bool :=
  try_except
    (match split (upper detail) with
     | _ :: p1 :: p2 :: _ =>
         match py_int p1, py_int p2 with
         | Some x, Some y =>
             success <- call (CMoveTo x y) (mouse_move_to x y) ;;
             if negb success then ret false
             else
               pos <- call CPosition pyautogui_position ;;
               call (CClick (Some (fst pos)) (Some (snd pos)))
                    (mouse_click (Some (fst pos)) (Some (snd pos)))
         | _, _ => throw "ValueError"
         end
     | _ => throw "IndexError"
     end)
    (fun _ => ret false).

(** One detail line of a deterministic step; the result tells whether the
    line set [step_succeeded]. *)
Definition exec_detail (detail : string) : M bool :=
  if startswith (upper detail) "WAIT" then exec_wait_detail detail
  else if startswith (upper detail) "CLICK " then exec_click_detail detail
  else
    let action := _parse_action detail in
    r <- execute_action action ;;
    add_action action (fst r) (snd r) ;;
    ret (fst r).

(** [for detail in details], threading [step_succeeded]. *)
Fixpoint exec_details (ds : list string) (step_succeeded : bool) : M bool :=
  match ds with
  | [] => ret step_succeeded
  | detail :: rest =>
      ok <- exec_detail detail ;;
      emit (EvDetail detail ok) ;;
      exec_details rest (if ok then true else step_succeeded)
  end.

(** The [if details:] arm of the loop body, for step [idx] of [total]. *)
Definition deterministic_step (total idx : nat) (step : Step) : M Flow :=
  step_succeeded <- exec_details (details step) false ;;
  if negb step_succeeded && (idx <? total)%nat then
    log (LStepFailedContinuing idx) ;;
    ret Continue
  else if negb step_succeeded && (idx =? total)%nat then
    log LAllFallbackFailed ;;
    ret (Return false)
  else ret Continue.

(** The lines of a decision-driven step that follow the decision: the
    dispatch of [action], the two histories and the handling of a failure. *)
Definition act_on_decision (idx : nat) (action : Action) (analysis : Analysis)
  : M Flow :=
  r <- execute_action action ;;
  emit (EvDispatch idx action (fst r)) ;;
  add_action action (fst r) (snd r) ;;
  log_action action (fst r) (snd r) ;;
  if negb (fst r) then
    s' <- get ;;
    error_handling_result <- handle_error (current_task s') action
                               (raw_text analysis) ;;
    if contains "RETRY" (upper error_handling_result) then
      set_step_index (Z.max 0 (Z.of_nat idx - 2)) ;;
      ret Continue
    else
      log LAborting ;;
      ret (Return false)
  else
    clear_cache AfterAction ;;
    sleep_briefly ;;
    ret Continue.

(** The rest of the loop body: a step decided by the language model. *)
Definition decision_step (idx : nat) (step : Step) : M Flow :=
  (if (1 <? idx)%nat then clear_cache BeforeStep else ret tt) ;;
  analysis <- analyze_current_screen false ;;
  add_screen analysis ;;
  s <- get ;;
  action <- decide_next_action (current_task s) (description step)
              (raw_text analysis) ;;
  act_on_decision idx action analysis.

(** The body of [for idx, step in enumerate(plan, start=1)]. *)
Definition step_body (total idx : nat) (step : Step) : M Flow :=
  log (LStartingStep idx total) ;;
  poll_owner ;;
  s <- get ;;
  if negb (is_running s) || is_paused s then
    log LInterrupted ;;
    ret (Return false)
  else
    match details step with
    | [] => decision_step idx step
    | _ :: _ => deterministic_step total idx step
    end.

(** The [for] loop over the steps that remain, [idx] being the number of
    the first of them, and the lines after the loop. *)
Fixpoint run_steps (total idx : nat) (steps : list Step) : M bool :=
  match steps with
  | [] =>
      log LPlanExecuted ;;
      ret true
  | step :: rest =>
      flow <- step_body total idx step ;;
      match flow with
      | Continue => run_steps total (S idx) rest
      | Return b => ret b
      end
  end.

Definition _execute_plan : M bool :=
  s <- get ;;
  match current_plan (context s) with
  | [] =>
      log LNoPlan ;;
      ret false
  | plan => run_steps (List.length plan) 1 plan
  end.

Definition _process_current_task : M bool :=
  try_except
    (clear_cache BeforePlanning ;;
     analysis <- analyze_current_screen true ;;
     add_screen analysis ;;
     s <- get ;;
     plan <- call CPlanTask
               (planner_plan_task (current_task s) (raw_text analysis)) ;;
     match plan with
     | [] =>
         log LEmptyPlan ;;
         ret false
     | _ :: _ =>
         set_plan plan ;;
         _execute_plan
     end)
    (fun e =>
       log (LErrorProcessing e) ;;
       ret false).

(** One turn of [while self.is_running] in [_agent_loop]; the result tells
    whether the loop goes on. *)
Definition agent_turn : M bool :=
  poll_owner ;;
  s <- get ;;
  if negb (is_running s) then ret false
  else if is_paused s then
    sleep_briefly ;;
    ret true
  else
    match task_queue s with
    | [] =>
        sleep_briefly ;;
        ret true
    | task :: queue =>
        modify (with_task queue (Some task)) ;;
        success <- _process_current_task ;;
        modify (fun s' => with_task (task_queue s') None s') ;;
        log_task_completion success ;;
        (if success then set_task_completed else set_task_failed) ;;
        sleep_briefly ;;
        ret true
    end.

(** [_agent_loop], for at most [turns] turns of its [while] loop. *)
Fixpoint agent_turns (turns : nat) : M unit :=
  match turns with
  | O => ret tt
  | S n =>
      go_on <- agent_turn ;;
      if go_on then agent_turns n else ret tt
  end.

Definition _agent_loop (turns : nat) : M unit :=
  try_except (agent_turns turns) (fun _ => modify (with_running false)).

(** ** Reading a trace *)

Definition is_clear (site : ClearSite) (e : Event) : bool :=
  match e, site with
  | EvClear BeforePlanning, BeforePlanning => true
  | EvClear BeforeStep, BeforeStep => true
  | EvClear AfterAction, AfterAction => true
  | _, _ => false
  end.

Definition is_capture (e : Event) : bool :=
  match e with EvCapture => true | _ => false end.

Definition is_call (e : Event) : bool :=
  match e with EvCall _ _ => true | _ => false end.

Definition is_raised_call (e : Event) : bool :=
  match e with EvCall _ false => true | _ => false end.

Definition is_dispatch (e : Event) : bool :=
  match e with EvDispatch _ _ _ => true | _ => false end.

(** A call of the language model, whether it returned or not. *)
Definition is_model_call (e : Event) : bool :=
  match e with EvCall (CGenerate _) _ => true | _ => false end.

Definition is_failed_dispatch (e : Event) : bool :=
  match e with EvDispatch _ _ false => true | _ => false end.

Definition is_detail_success (e : Event) : bool :=
  match e with EvDetail _ true => true | _ => false end.

Definition is_interrupt (e : Event) : bool :=
  match e with EvLog LInterrupted => true | _ => false end.

Definition is_step_start (e : Event) : bool :=
  match e with EvLog (LStartingStep _ _) => true | _ => false end.

Definition count (p : Event -> bool) (t : list Event) : nat :=
  List.length (filter p t).

(** A trace made of calls into the host only. *)
Definition calls_only (t : list Event) : Prop :=
  Forall (fun e => is_call e = true) t.

Definition is_owner (e : Event) : bool :=
  match e with EvOwner _ => true | _ => false end.

(** Events that come from outside the loop itself: calls into the host,
    captures and calls of the owner. *)
Definition is_host (e : Event) : bool :=
  is_call e || is_capture e || is_owner e.

Definition host_only (t : list Event) : Prop :=
  Forall (fun e => is_host e = true) t.

(** A predicate on events that is blind to the events of the host. *)
Definition loop_event (p : Event -> bool) : Prop :=
  forall e, is_host e = true -> p e = false.

(** [s'] differs from [s] at most in the two flags and the world. *)
Definition only_flags_differ (s s' : AgentCore) : Prop :=
  context s' = context s /\
  _cached_analysis s' = _cached_analysis s /\
  task_queue s' = task_queue s /\
  current_task s' = current_task s /\
  session_log s' = session_log s.

(** The numbers of the steps started, in order. *)
Definition steps_started (t : list Event) : list nat :=
  flat_map (fun e => match e with
                     | EvLog (LStartingStep idx _) => [idx]
                     | _ => []
                     end) t.

(** ** The rest of the executor, the analyzer and the context *)

(** [ActionExecutor.execute_sequence(actions, delay_between)], in its
    sequential form: it stops after the first action that fails and sleeps
    between two actions, not after the last one. *)
Fixpoint execute_sequence (delay_between : Num) (actions : list Action)
  : M (list (bool * string)) :=
  match actions with
  | [] => ret []
  | action :: rest =>
      r <- execute_action action ;;
      if negb (fst r) then ret [r]
      else
        match rest with
        | [] => ret tt
        | _ :: _ => call (CSleep delay_between) (time_sleep delay_between)
        end ;;
        results <- execute_sequence delay_between rest ;;
        ret (r :: results)
  end.

(** An element returned by [find_element_by_text]: a copy of the text
    element with the two keys of its centre. *)
Record MatchedElement : Type := mkMatched {
  m_element : TextElement;
  center_x : Z;
  center_y : Z
}.

(** The test of the loop of [find_element_by_text]. *)
Definition element_matches (text : string) (case_sensitive partial_match : bool)
    (elem : TextElement) : bool :=
  let elem_text := if case_sensitive then te_text elem else lower (te_text elem) in
  let search_text := if case_sensitive then text else lower text in
  if partial_match
  then contains search_text elem_text || contains elem_text search_text
  else contains search_text elem_text.

(** [elem['x'] + elem['width'] // 2] and the same for [y]. *)
Definition with_center (elem : TextElement) : MatchedElement :=
  mkMatched elem (te_x elem + te_width elem / 2) (te_y elem + te_height elem / 2).

(** [ScreenAnalyzer.find_element_by_text(text, case_sensitive, partial_match)]. *)
Definition find_element_by_text (text : string)
    (case_sensitive partial_match : bool) : M (list MatchedElement) :=
  analysis <- analyze_current_screen false ;;
  ret (map with_center
         (filter (element_matches text case_sensitive partial_match)
            (text_elements analysis))).

(** [l[i]] for a list and an integer; [None] stands for [IndexError]. *)
Definition py_item {A : Type} (l : list A) (i : Z) : option A :=
  let n := Z.of_nat (List.length l) in
  if 0 <=? i then nth_error l (Z.to_nat i)
  else if 0 <=? n + i then nth_error l (Z.to_nat (n + i))
  else None.

(** [l[start:]] for a list and an integer. *)
Definition py_slice_from {A : Type} (start : Z) (l : list A) : list A :=
  let n := Z.of_nat (List.length l) in
  skipn (Z.to_nat (if start <? 0 then Z.max 0 (n + start) else start)) l.

(** [ContextManager.next_step]. *)
Definition next_step : M (option Step) :=
  s <- get ;;
  let c := context s in
  if current_step_index c <? Z.of_nat (List.length (current_plan c)) - 1 then
    set_step_index (current_step_index c + 1) ;;
    match py_item (current_plan c) (current_step_index c + 1) with
    | Some step => ret (Some step)
    | None => throw "IndexError"
    end
  else ret None.

(** [ContextManager.get_current_step]. *)
Definition get_current_step (c : ContextManager) : option Step :=
  if (0 <=? current_step_index c)
     && (current_step_index c <? Z.of_nat (List.length (current_plan c)))
  then py_item (current_plan c) (current_step_index c)
  else None.

(** [ContextManager.get_recent_actions(count)] and
    [ContextManager.get_recent_screens(count)]. *)
Definition get_recent_actions (count : Z) (c : ContextManager)
  : list ActionEntry :=
  py_slice_from (- count) (action_history c).

Definition get_recent_screens (count : Z) (c : ContextManager) : list Analysis :=
  py_slice_from (- count) (screen_history c).

(** [AgentCore._process_task], the worker of [execute_parallel_tasks]: the
    [try] block, its [except Exception] and its [finally]. *)
Definition _process_task (task_description : string) : M bool :=
  r <- try_except
         (modify (fun s => with_task (task_queue s) (Some task_description) s) ;;
          success <- _process_current_task ;;
          log_task_completion success ;;
          (if success then set_task_completed else set_task_failed) ;;
          ret success)
         (fun _ => ret false) ;;
  modify (fun s => with_task (task_queue s) None s) ;;
  ret r.

(** ** Invariants of computations *)

(** Every run of [m] that starts in a state with [P] ends in one. *)
Definition preserves (P : AgentCore -> Prop) {A : Type} (m : M A) : Prop :=
  forall s r s' t, m s = (r, s', t) -> P s -> P s'.

(** Every run of [m] returns. *)
Definition never_raises {A : Type} (m : M A) : Prop :=
  forall s, exists x s' t, m s = (Ok x, s', t).

(** Both histories of the context respect the bound of their deque. *)
Definition histories_bounded (s : AgentCore) : Prop :=
  (List.length (screen_history (context s)) <= max_history)%nat /\
  (List.length (action_history (context s)) <= max_history)%nat.

(** The context holds [plan] and its cursor points into it. *)
Definition cursor_in_plan (plan : list Step) (s : AgentCore) : Prop :=
  current_plan (context s) = plan /\
  0 <= current_step_index (context s) < Z.of_nat (List.length plan).

(** The session log starts with [l]. *)
Definition log_extends (l : list SessionEvent) (s : AgentCore) : Prop :=
  exists more, session_log s = (l ++ more)%list.

(** ** The planner: [TaskPlanner] *)

Definition newline : ascii := ascii_of_nat 10.

(** [line[0].isdigit() and "." in line[:3]]. *)
Definition is_step_line (line : string) : bool :=
  match line with
  | EmptyString => false
  | String c _ => is_digit c && contains "." (take 3 line)
  end.

(** [line[line.index('.')+1:]]. *)
Fixpoint after_first_dot (line : string) : string :=
  match line with
  | EmptyString => EmptyString
  | String c r => if Ascii.eqb c "."%char then r else after_first_dot r
  end.

(** [int(line[0])] for a line that starts with a digit. *)
Definition first_digit (line : string) : Z :=
  match line with
  | EmptyString => 0
  | String c _ => Z.of_nat (code c - 48)
  end.

(** [steps.append(current_step)] under [if current_step:]. *)
Definition close_step (steps : list Step) (current : option Step) : list Step :=
  match current with
  | Some step => (steps ++ [step])%list
  | None => steps
  end.

(** The loop of [_parse_steps] over the lines that remain; [current] is the
    step being filled, [None] for the empty dictionary. *)
Fixpoint parse_step_lines (lines : list string) (steps : list Step)
    (current : option Step) : list Step :=
  match lines with
  | [] => close_step steps current
  | raw :: rest =>
      let line := strip raw in
      if is_empty line then parse_step_lines rest steps current
      else if is_step_line line then
        parse_step_lines rest (close_step steps current)
          (Some (mkStep (first_digit line) (strip (after_first_dot line)) []))
      else
        match current with
        | Some step =>
            parse_step_lines rest steps
              (Some (mkStep (number step) (description step)
                            (details step ++ [line])%list))
        | None => parse_step_lines rest steps None
        end
  end.

(** [TaskPlanner._parse_steps]. *)
Definition _parse_steps (plan_text : string) : list Step :=
  parse_step_lines (split_on newline (strip plan_text)) [] None.

(** [[l.strip() for l in text.strip().split('\n') if l.strip()]]. *)
Definition nonblank_lines (text : string) : list string :=
  filter (fun l => negb (is_empty l))
    (map strip (split_on newline (strip text))).

(** What [_decompose_task] makes of the answer of the model. *)
Definition sub_tasks_of (task_description response : string) : list string :=
  let sub_tasks := nonblank_lines response in
  match sub_tasks with
  | [] => [task_description]
  | [only] =>
      if String.eqb (lower only) (lower task_description)
      then [task_description]
      else sub_tasks
  | _ :: _ :: _ => sub_tasks
  end.

(** [step['description'] = f"Sub-task '{sub_task}': {step['description']}"]. *)
Definition label_step (sub_task : string) (step : Step) : Step :=
  mkStep (number step)
    ("Sub-task '" ++ sub_task ++ "': " ++ description step)
    (details step).

(** [for i, step in enumerate(all_plans): step['number'] = i + 1], from
    number [i] on. *)
Fixpoint renumber_from (i : Z) (steps : list Step) : list Step :=
  match steps with
  | [] => []
  | step :: rest =>
      mkStep i (description step) (details step) :: renumber_from (i + 1) rest
  end.

(** The collaborators of the planner: the answer of the model to the
    decomposition prompt of a task, the chunks it streams for the planning
    prompt of a sub-task, and [get_fallback_plan]. *)
Class PlannerHost : Type := mkPlannerHost {
  decomposition_generate : string -> World -> Outcome string * World;
  planning_stream :
    string -> string -> string -> World -> Outcome (list string) * World;
  get_fallback_plan : string -> string -> list Step
}.

Context {planner : PlannerHost}.

(** [TaskPlanner._decompose_task]. *)
Definition _decompose_task (task_description : string) (w : World)
  : Outcome (list string) * World :=
  match decomposition_generate task_description w with
  | (Ok response, w1) => (Ok (sub_tasks_of task_description response), w1)
  | (Raise e, w1) => (Raise e, w1)
  end.

(** [TaskPlanner._plan_sub_task]: the chunks are joined, then parsed. *)
Definition _plan_sub_task (sub_task original_task screen : string) (w : World)
  : Outcome (list Step) * World :=
  match planning_stream sub_task original_task screen w with
  | (Ok tokens, w1) => (Ok (_parse_steps (String.concat EmptyString tokens)), w1)
  | (Raise e, w1) => (Raise e, w1)
  end.

(** The loop of [plan_task] over the sub-tasks; [all_plans] is what the
    sub-tasks before gave. *)
Fixpoint plan_sub_tasks (sub_tasks : list string) (task screen : string)
    (all_plans : list Step) (w : World) : Outcome (list Step) * World :=
  match sub_tasks with
  | [] => (Ok all_plans, w)
  | sub_task :: rest =>
      match _plan_sub_task sub_task task screen w with
      | (Ok sub_task_plan, w1) =>
          plan_sub_tasks rest task screen
            (all_plans ++ map (label_step sub_task) sub_task_plan)%list w1
      | (Raise e, w1) => (Raise e, w1)
      end
  end.

(** [TaskPlanner.plan_task]. *)
Definition plan_task (task_description screen : string) (w : World)
  : Outcome (list Step) * World :=
  match _decompose_task task_description w with
  | (Ok sub_tasks, w1) =>
      match plan_sub_tasks sub_tasks task_description screen [] w1 with
      | (Ok all_plans, w2) =>
          (Ok (renumber_from 1
                 match all_plans with
                 | [] => get_fallback_plan task_description screen
                 | _ :: _ => all_plans
                 end), w2)
      | (Raise e, w2) => (Raise e, w2)
      end
  | (Raise e, w1) => (Raise e, w1)
  end.

(** A detail line [CLICK_ELEMENT "element"], as [get_fallback_plan] writes
    them for click tasks and for tasks it does not recognise. *)
Definition click_element_line (element : string) : string :=
  "CLICK_ELEMENT " ++ quoted element.

(** What [_parse_steps] guarantees of a step: a one-digit number, a stripped
    description, and details that are stripped, not blank and not numbered
    lines themselves. *)
Definition well_formed_step (step : Step) : Prop :=
  0 <= number step <= 9 /\
  strip (description step) = description step /\
  Forall (fun d => is_empty d = false /\ strip d = d /\ is_step_line d = false)
    (details step).

(** The lines of a text that start a step. *)
Definition step_lines (text : string) : list string :=
  filter is_step_line (nonblank_lines text).

End Agent.

(** ** A scripted host

    A small concrete world, used to run the model on examples: the replies
    of the language model and the calls of the owning thread are read off
    scripts, the pointer either works or does not, durations are whole
    numbers of seconds and a screenshot is the text on the screen. *)
Module Demo.

Definition demo_float : PyFloat Z :=
  {| py_float := py_int; str_of_float := str_of_int |}.

Record DemoWorld : Type := mkDemoWorld {
  lm_replies : list string;
  owner_script : list (list OwnerCall);
  pointer_works : bool;
  planned : list Step
}.

Definition next_reply (w : DemoWorld) : Outcome string * DemoWorld :=
  match lm_replies w with
  | r :: rest =>
      (Ok r, mkDemoWorld rest (owner_script w) (pointer_works w) (planned w))
  | [] => (Ok EmptyString, w)
  end.

Definition next_owner_calls (w : DemoWorld) : list OwnerCall * DemoWorld :=
  match owner_script w with
  | c :: rest =>
      (c, mkDemoWorld (lm_replies w) rest (pointer_works w) (planned w))
  | [] => ([], w)
  end.

Definition demo_sleep (d : Num (F := Z)) (w : DemoWorld)
  : Outcome unit * DemoWorld :=
  match d with
  | NInt z | NFloat z =>
      if z <? 0 then (Raise "sleep length must be non-negative", w)
      else (Ok tt, w)
  end.

Definition demo_host : Host (F := Z) (Image := string) (World := DemoWorld) :=
  {| mouse_click := fun _ _ w => (Ok (pointer_works w), w);
     mouse_move_to := fun _ _ w => (Ok true, w);
     mouse_scroll := fun _ _ w => (Ok tt, w);
     mouse_double_click := fun _ _ w => (Ok tt, w);
     mouse_right_click := fun _ _ w => (Ok tt, w);
     mouse_drag_to := fun _ _ _ _ w => (Ok tt, w);
     pyautogui_position := fun w => (Ok (0, 0), w);
     keyboard_type_text := fun _ w => (Ok tt, w);
     keyboard_press_key := fun _ w => (Ok tt, w);
     keyboard_hotkey := fun _ w => (Ok tt, w);
     time_sleep := demo_sleep;
     subprocess_Popen := fun cmd w =>
       match cmd with
       | Some _ => (Ok tt, w)
       | None => (Raise "expected str, not NoneType", w)
       end;
     launcher_launch_app := fun _ w => (Ok false, w);
     launcher_launch_chrome := fun w => (Ok true, w);
     save_screenshot := fun w => (Ok "screenshots/screenshot.png", w);
     capture_full_screen := fun w => (Ok "Desktop", w);
     extract_text := fun img => Ok img;
     extract_text_with_positions := fun _ => Ok [];
     detect_buttons := fun _ => Ok [];
     ollama_generate := fun _ w => next_reply w;
     planner_plan_task := fun _ _ w => (Ok (planned w), w);
     short_sleep := fun w => w;
     owner_calls := next_owner_calls |}.

Definition demo_context (plan : list Step)
  : ContextManager (F := Z) (Image := string) :=
  mkContext StatusInProgress plan (match plan with [] => -1 | _ => 0 end) [] [].

(** A running agent working on ["demo"] with plan [plan] set. *)
Definition demo_agent (plan : list Step) (w : DemoWorld)
  : AgentCore (F := Z) (Image := string) (World := DemoWorld) :=
  mkAgent true false [] (Some "demo") None (demo_context plan) [] w.

(** A running agent with ["demo"] queued and nothing started. *)
Definition idle_agent (w : DemoWorld)
  : AgentCore (F := Z) (Image := string) (World := DemoWorld) :=
  mkAgent true false ["demo"] None None (demo_context []) [] w.

(** A step decided by the language model. *)
Definition ask (n : Z) (what : string) : Step := mkStep n what [].

(** Two steps left to the language model. *)
Definition two_steps : list Step :=
  [ask 1 "open the menu"; ask 2 "pick the entry"].

(** A step with the two detail lines of the example of the specification. *)
Definition wait_then_click : Step :=
  mkStep 1 "wait, then click" ["WAIT 1"; "CLICK 10 10"].

(** The model would answer two actions that succeed. *)
Definition smooth_world : DemoWorld :=
  mkDemoWorld ["WAIT 1"; "WAIT 1"] [] true [].

(** The second answer of the model would not parse to an action, and asked
    about the failure it would say to retry. *)
Definition retry_world : DemoWorld :=
  mkDemoWorld ["WAIT 1"; "FOO"; "Please retry that"] [] true [].

(** Asked about a failure, the model says to retry. *)
Definition retry_reply_world : DemoWorld :=
  mkDemoWorld ["Please retry that"] [] true [].

(** A step that waits one second, by a detail line. *)
Definition wait_step (n : Z) : Step := mkStep n "wait a moment" ["WAIT 1"].

Definition two_waits : list Step := [wait_step 1; wait_step 2].

(** A step whose only detail asks for a wait of negative length, and one
    that clicks before it does; either is followed by [wait_step 2]. *)
Definition negative_wait : list Step :=
  [mkStep 1 "wait" ["WAIT -1"]; wait_step 2].

Definition click_then_negative_wait : list Step :=
  [mkStep 1 "click, then wait" ["CLICK 10 10"; "WAIT -1"]; wait_step 2].

(** The planner answers [two_waits]; the owner pauses the agent while step
    1 runs and resumes it two turns of the agent loop later. *)
Definition pause_world : DemoWorld :=
  mkDemoWorld [] [[]; []; [CallPause]; []; [CallResume]] true two_waits.

(** The planner answers [two_steps] and the model would answer each
    question with an action that succeeds. *)
Definition smooth_task_world : DemoWorld :=
  mkDemoWorld ["WAIT 1"; "WAIT 1"] [] true two_steps.

(** The planner answers [negative_wait]. *)
Definition negative_wait_world : DemoWorld :=
  mkDemoWorld [] [] true negative_wait.

(** The owner has just paused the agent. *)
Definition paused_world : DemoWorld :=
  mkDemoWorld [] [[CallPause]] true [].

(** The pointer does not work: [mouse.click] answers [False]. *)
Definition broken_pointer : DemoWorld := mkDemoWorld [] [] false [].

(** The planner answers with an empty plan. *)
Definition no_plan_world : DemoWorld := mkDemoWorld [] [] true [].

Definition desktop : Analysis (Image := string) :=
  mkAnalysis [] [] "Desktop" "Desktop".

(** An agent that has an observation in its cache. *)
Definition cached_agent
  : AgentCore (F := Z) (Image := string) (World := DemoWorld) :=
  mkAgent true false [] (Some "demo") (Some desktop) (demo_context []) []
    smooth_world.

Definition retry_run :=
  _execute_plan (PF := demo_float) (host := demo_host)
    (demo_agent two_steps retry_world).

(** What the [TypeError] of [decide_next_action] says. *)
Definition decision_error : string :=
  "PromptTemplates.get_action_decision_prompt() got an unexpected keyword argument 'current_step'".

(** The lines after the decision, for step 2 of [two_steps], were the
    decision an action the dispatcher does not know. *)
Definition retry_branch_run :=
  act_on_decision (PF := demo_float) (host := demo_host) 2
    (unknown_action "FOO") desktop (demo_agent two_steps retry_reply_world).

Definition smooth_run :=
  _execute_plan (PF := demo_float) (host := demo_host)
    (demo_agent two_steps smooth_world).

(** One turn of the agent loop on a task planned as [two_steps]. *)
Definition smooth_task_run :=
  _agent_loop (PF := demo_float) (host := demo_host) 1
    (idle_agent smooth_task_world).

(** The plans with a wait of negative length, and a turn of the agent loop
    on the first of them. *)
Definition negative_wait_run :=
  _execute_plan (PF := demo_float) (host := demo_host)
    (demo_agent negative_wait smooth_world).

Definition click_then_negative_wait_run :=
  _execute_plan (PF := demo_float) (host := demo_host)
    (demo_agent click_then_negative_wait smooth_world).

Definition negative_wait_task_run :=
  _agent_loop (PF := demo_float) (host := demo_host) 1
    (idle_agent negative_wait_world).

(** Two turns of the agent loop: the task is taken and its plan interrupted
    at step 2; the agent then idles, paused. *)
Definition paused_run :=
  _agent_loop (PF := demo_float) (host := demo_host) 2 (idle_agent pause_world).

(** Three more turns, in the first of which the owner's [resume] arrives. *)
Definition resumed_run :=
  _agent_loop (PF := demo_float) (host := demo_host) 3 (state_of paused_run).

(** The loop body on the step [wait_then_click], first of two, with a
    pointer that does not work. *)
Definition detail_run :=
  step_body (PF := demo_float) (host := demo_host) 2 1 wait_then_click
    (demo_agent [wait_then_click] broken_pointer).

(** An observation with three pieces of text on the screen. *)
Definition menu_screen : Analysis (Image := string) :=
  mkAnalysis
    [mkTextElement "File" 10 10 40 20 90;
     mkTextElement "Profile" 60 10 70 20 80;
     mkTextElement "Edit" 140 10 41 21 85]
    [] "File Profile Edit" "menu".

(** An agent that has [menu_screen] in its cache. *)
Definition menu_agent
  : AgentCore (F := Z) (Image := string) (World := DemoWorld) :=
  mkAgent true false [] (Some "demo") (Some menu_screen) (demo_context []) []
    smooth_world.

(** A wait, an action the dispatcher does not know, and a click. *)
Definition three_actions : list (Action (F := Z)) :=
  [wait_action (NInt 1); unknown_action "FOO"; click_action 1 1].

Definition sequence_run :=
  execute_sequence (PF := demo_float) (host := demo_host) (NInt 1)
    three_actions (demo_agent [] smooth_world).

Definition click_run :=
  execute_action (PF := demo_float) (host := demo_host) (click_action 10 10)
    (demo_agent [] broken_pointer).

(** The second step of [two_steps], decided by the model, with an
    observation still in the cache. *)
Definition later_step_run :=
  decision_step (PF := demo_float) (host := demo_host) 2
    (ask 2 "pick the entry") cached_agent.

(** A context that has recorded three actions. *)
Definition busy_context : ContextManager (F := Z) (Image := string) :=
  mkContext StatusInProgress two_steps 0 []
    [mkActionEntry (wait_action (NInt 1)) true "Waited for 1 seconds";
     mkActionEntry (unknown_action "FOO") false "Unknown action type: unknown";
     mkActionEntry (click_action 1 1) true "Clicked at (1, 1)"].

(** An agent whose cursor is on the first of [two_steps]. *)
Definition busy_agent
  : AgentCore (F := Z) (Image := string) (World := DemoWorld) :=
  mkAgent true false [] (Some "demo") None busy_context [] smooth_world.

(** The owner has stopped the agent. *)
Definition stopped_world : DemoWorld := mkDemoWorld [] [[CallStop]] true [].

(** A text of several lines. *)
Definition lines_text (lines : list string) : string :=
  String.concat (String newline EmptyString) lines.

(** A plan as the planning prompt asks for it, and one with a line of
    detail under its step. *)
Definition numbered_text : string :=
  lines_text ["1. CLICK 10 10"; EmptyString; "  2. WAIT 1"].

Definition detailed_text : string :=
  lines_text ["Here is the plan:"; "7. Press the key"; "   PRESS enter"].

(** The model of the planner answers from the script of the world, a plan
    text in one chunk; the fallback plan has one step. *)
Definition demo_planner : PlannerHost (World := DemoWorld) :=
  {| decomposition_generate := fun _ w => next_reply w;
     planning_stream := fun _ _ _ w =>
       match next_reply w with
       | (Ok r, w') => (Ok [r], w')
       | (Raise e, w') => (Raise e, w')
       end;
     get_fallback_plan := fun _ _ => [mkStep 1 "Look at the screen" ["WAIT 1"]] |}.

(** The model splits the task in two and plans each part. *)
Definition planner_world : DemoWorld :=
  mkDemoWorld
    [lines_text ["open the menu"; "pick the entry"]; numbered_text;
     detailed_text]
    [] true [].

End Demo.

(** * Properties *)

(** ** Text *)

Lemma lower_lower_char (c : ascii) : lower_char (lower_char c) = lower_char c.
Proof. destruct c as [[] [] [] [] [] [] [] []]; reflexivity. Qed.

Lemma lower_upper_char (c : ascii) : lower_char (upper_char c) = lower_char c.
Proof. destruct c as [[] [] [] [] [] [] [] []]; reflexivity. Qed.

Lemma upper_upper_char (c : ascii) : upper_char (upper_char c) = upper_char c.
Proof. destruct c as [[] [] [] [] [] [] [] []]; reflexivity. Qed.

Lemma is_upper_lower_char (c : ascii) : is_upper_char (lower_char c) = false.
Proof. destruct c as [[] [] [] [] [] [] [] []]; reflexivity. Qed.

Lemma is_space_upper_char (c : ascii) : is_space (upper_char c) = is_space c.
Proof. destruct c as [[] [] [] [] [] [] [] []]; reflexivity. Qed.

Lemma dquote_upper_char (c : ascii) :
  Ascii.eqb (upper_char c) dquote = Ascii.eqb c dquote.
Proof. destruct c as [[] [] [] [] [] [] [] []]; reflexivity. Qed.

Lemma map_str_cons (f : ascii -> ascii) (c : ascii) (r : string) :
  map_str f (String c r) = String (f c) (map_str f r).
Proof. reflexivity. Qed.

Lemma lower_cons (c : ascii) (r : string) :
  lower (String c r) = String (lower_char c) (lower r).
Proof. reflexivity. Qed.

Lemma upper_cons (c : ascii) (r : string) :
  upper (String c r) = String (upper_char c) (upper r).
Proof. reflexivity. Qed.

Lemma lower_idempotent (s : string) : lower (lower s) = lower s.
Proof.
  induction s as [|c r IH]; [reflexivity|].
  now rewrite !lower_cons, lower_lower_char, IH.
Qed.

Lemma lower_upper (s : string) : lower (upper s) = lower s.
Proof.
  induction s as [|c r IH]; [reflexivity|].
  now rewrite upper_cons, !lower_cons, lower_upper_char, IH.
Qed.

Lemma upper_idempotent (s : string) : upper (upper s) = upper s.
Proof.
  induction s as [|c r IH]; [reflexivity|].
  now rewrite !upper_cons, upper_upper_char, IH.
Qed.

Lemma no_upper_lower (s : string) : no_upper (lower s) = true.
Proof.
  induction s as [|c r IH]; [reflexivity|].
  rewrite lower_cons. unfold no_upper in *. cbn [all_chars].
  now rewrite is_upper_lower_char, IH.
Qed.

Lemma is_empty_upper (s : string) : is_empty (upper s) = is_empty s.
Proof. destruct s; reflexivity. Qed.

Lemma upper_lstrip (s : string) : lstrip (upper s) = upper (lstrip s).
Proof.
  induction s as [|c r IH]; [reflexivity|].
  rewrite upper_cons. cbn [lstrip].
  rewrite is_space_upper_char. destruct (is_space c); [exact IH | reflexivity].
Qed.

Lemma upper_rstrip (s : string) : rstrip (upper s) = upper (rstrip s).
Proof.
  induction s as [|c r IH]; [reflexivity|].
  rewrite upper_cons. cbn [rstrip].
  rewrite IH, is_empty_upper, is_space_upper_char.
  destruct (is_space c && is_empty (rstrip r)); reflexivity.
Qed.

Lemma upper_strip (s : string) : strip (upper s) = upper (strip s).
Proof. unfold strip. now rewrite upper_lstrip, upper_rstrip. Qed.

Lemma upper_drop (k : nat) (s : string) : drop k (upper s) = upper (drop k s).
Proof.
  revert s; induction k as [|k IH]; intros [|c r]; try reflexivity.
  rewrite upper_cons. cbn [drop]. apply IH.
Qed.

Lemma upper_drop_last (s : string) : drop_last (upper s) = upper (drop_last s).
Proof.
  induction s as [|c r IH]; [reflexivity|].
  destruct r as [|d r']; [reflexivity|].
  rewrite upper_cons. rewrite upper_cons in *. cbn [drop_last] in *.
  now rewrite IH, upper_cons.
Qed.

Lemma upper_strip_ends (s : string) : strip_ends (upper s) = upper (strip_ends s).
Proof. unfold strip_ends. now rewrite upper_drop, upper_drop_last. Qed.

Lemma last_char_upper (s : string) :
  last_char (upper s) = option_map upper_char (last_char s).
Proof.
  induction s as [|c r IH]; [reflexivity|].
  destruct r as [|d r']; [reflexivity|].
  rewrite upper_cons. rewrite upper_cons in *. cbn [last_char] in *. exact IH.
Qed.

Lemma first_quote_upper (s : string) :
  prefix (String dquote EmptyString) (upper s) =
  prefix (String dquote EmptyString) s.
Proof.
  destruct s as [|c r]; [reflexivity|].
  rewrite upper_cons. cbn [prefix].
  destruct (ascii_dec dquote (upper_char c)) as [E|E],
           (ascii_dec dquote c) as [E'|E']; try reflexivity.
  - now destruct r.
  - exfalso. apply E'. symmetry. apply Ascii.eqb_eq.
    rewrite <- dquote_upper_char. apply Ascii.eqb_eq. now symmetry.
  - exfalso. apply E. symmetry. apply Ascii.eqb_eq.
    rewrite dquote_upper_char. apply Ascii.eqb_eq. now symmetry.
Qed.

Lemma is_quoted_upper (s : string) : is_quoted (upper s) = is_quoted s.
Proof.
  unfold is_quoted, endswith_char, startswith.
  rewrite last_char_upper, first_quote_upper.
  destruct (last_char s) as [d|]; cbn [option_map]; [|reflexivity].
  now rewrite dquote_upper_char.
Qed.

Lemma unquote_upper (s : string) : unquote (upper s) = upper (unquote s).
Proof.
  unfold unquote. rewrite is_quoted_upper, upper_strip_ends.
  destruct (is_quoted s); reflexivity.
Qed.

Section Properties.

Context {F : Type} {PF : PyFloat F} {Image World : Type}.
Context {host : Host (F := F) (Image := Image) (World := World)}.

Implicit Types (s : AgentCore (F := F) (Image := Image) (World := World)).
Implicit Types (a : Action (F := F)).
Implicit Types (t : list (Event (F := F))).

(** ** The action grammar *)

(** Only the [PRESS] arm of the parser builds a press action. *)
Lemma parse_press_inv (line : string) :
  a_type (_parse_action line) = Some "press" ->
  _parse_action line =
  press_action (lower (unquote (strip (drop 5 (upper (strip line)))))).
Proof.
  unfold _parse_action, unquote.
  destruct (startswith (upper (strip line)) "CLICK").
  { destruct (split (upper (strip line))) as [|p0 [|p1 [|p2 ps]]];
      try discriminate.
    destruct (py_int p1); [destruct (py_int p2)|]; discriminate. }
  destruct (startswith (upper (strip line)) "TYPE").
  { destruct (is_quoted _); discriminate. }
  destruct (startswith (upper (strip line)) "PRESS").
  { destruct (is_quoted _); reflexivity. }
  destruct (startswith (upper (strip line)) "WAIT"); [discriminate|].
  destruct (startswith (upper (strip line)) "SCROLL"); [discriminate|].
  destruct (startswith (upper (strip line)) "RUN"); [discriminate|].
  destruct (startswith (upper (strip line)) "LAUNCH"); [|discriminate].
  destruct (contains "CHROME" _); discriminate.
Qed.

(** C10. Whenever a line is parsed as a press action, the key of the action
    is the captured key text (quoted or bare) in lower case: it is left
    unchanged by [lower] and holds no capital letter, whatever the letter
    case of the line was. *)
Theorem press_key_is_lowercase (line : string) :
  a_type (_parse_action line) = Some "press" ->
  exists key,
    a_key (_parse_action line) = Some key /\
    key = lower (unquote (strip (drop 5 (strip line)))) /\
    lower key = key /\
    no_upper key = true.
Proof.
  intros H. rewrite (parse_press_inv line H).
  exists (lower (unquote (strip (drop 5 (strip line))))).
  repeat split.
  - cbn [press_action a_key].
    now rewrite upper_drop, upper_strip, unquote_upper, lower_upper.
  - apply lower_idempotent.
  - apply no_upper_lower.
Qed.

(** C3. The parser slices the text of a [TYPE] line out of the upper-cased
    copy of the line: the line [TYPE "hello world"] yields the text
    [HELLO WORLD], not [hello world]. *)
Theorem type_text_is_uppercased :
  _parse_action ("TYPE " ++ quoted "hello world") = type_action "HELLO WORLD" /\
  a_text (_parse_action ("TYPE " ++ quoted "hello world")) <> Some "hello world".
Proof. split; [reflexivity | discriminate]. Qed.

(** The text of every type action built by the parser is in upper case. *)
Lemma type_text_upper (line : string) (text : string) :
  a_type (_parse_action line) = Some "type" ->
  a_text (_parse_action line) = Some text ->
  upper text = text.
Proof.
  unfold _parse_action.
  destruct (startswith (upper (strip line)) "CLICK").
  { destruct (split (upper (strip line))) as [|p0 [|p1 [|p2 ps]]];
      try discriminate.
    destruct (py_int p1); [destruct (py_int p2)|]; discriminate. }
  destruct (startswith (upper (strip line)) "TYPE").
  { intros _.
    assert (E : forall u, upper (strip (drop 4 (upper u))) = strip (drop 4 (upper u))).
    { intros u. now rewrite <- upper_strip, <- upper_drop, upper_idempotent. }
    destruct (is_quoted _); cbn [type_action a_text]; intros [= <-].
    - rewrite <- upper_strip_ends. f_equal. exact (E (strip line)).
    - exact (E (strip line)). }
  destruct (startswith (upper (strip line)) "PRESS").
  { destruct (is_quoted _); discriminate. }
  destruct (startswith (upper (strip line)) "WAIT"); [discriminate|].
  destruct (startswith (upper (strip line)) "SCROLL"); [discriminate|].
  destruct (startswith (upper (strip line)) "RUN"); [discriminate|].
  destruct (startswith (upper (strip line)) "LAUNCH"); [|discriminate].
  destruct (contains "CHROME" _); discriminate.
Qed.

(** ** Running computations *)

Lemma bind_ok {A B : Type} (m : M A) (k : A -> M B) s x s1 t1 :
  m s = (Ok x, s1, t1) ->
  bind m k s =
  (result_of (k x s1), state_of (k x s1), (t1 ++ trace_of (k x s1))%list).
Proof.
  intros H. unfold bind. rewrite H.
  now destruct (k x s1) as [[r s2] t2].
Qed.

Lemma bind_raise {A B : Type} (m : M A) (k : A -> M B) s e s1 t1 :
  m s = (Raise e, s1, t1) -> bind m k s = (Raise e, s1, t1).
Proof. intros H. unfold bind. now rewrite H. Qed.

Lemma bind_inv {A B : Type} (m : M A) (k : A -> M B) s r s' t :
  bind m k s = (r, s', t) ->
  (exists e, m s = (Raise e, s', t) /\ r = Raise e) \/
  (exists x s1 t1 t2,
      m s = (Ok x, s1, t1) /\ k x s1 = (r, s', t2) /\ t = (t1 ++ t2)%list).
Proof.
  unfold bind. destruct (m s) as [[[x|e] s1] t1].
  - destruct (k x s1) as [[r2 s2] t2] eqn:E. intros [= <- <- <-].
    right. now exists x, s1, t1, t2.
  - intros [= <- <- <-]. left. now exists e.
Qed.

Lemma try_except_inv {A : Type} (m : M A) (h : string -> M A) s r s' t :
  try_except m h s = (r, s', t) ->
  (exists x, m s = (Ok x, s', t) /\ r = Ok x) \/
  (exists e s1 t1 t2,
      m s = (Raise e, s1, t1) /\ h e s1 = (r, s', t2) /\ t = (t1 ++ t2)%list).
Proof.
  unfold try_except. destruct (m s) as [[[x|e] s1] t1].
  - intros [= <- <- <-]. left. now exists x.
  - destruct (h e s1) as [[r2 s2] t2] eqn:E. intros [= <- <- <-].
    right. now exists e, s1, t1, t2.
Qed.

Lemma call_inv {A : Type} (c : Call) (f : World -> Outcome A * World) s r s' t :
  call c f s = (r, s', t) ->
  exists w, f (world s) = (r, w) /\ s' = with_world w s /\
            t = [EvCall c (returned r)].
Proof.
  unfold call. destruct (f (world s)) as [r0 w]. intros [= <- <- <-].
  now exists w.
Qed.

(** Unfolds the plumbing of a computation, leaving the calls into the host
    and the tests of the code. *)
Ltac run :=
  cbv beta iota zeta delta
    [bind ret get modify emit log lift call try_except throw capture
     clear_cache add_screen add_action log_action log_task_completion
     set_plan set_step_index set_task_status set_task_completed
     set_task_failed sleep_briefly
     with_world with_cache with_context with_session_log with_running
     with_paused with_task result_of state_of trace_of];
  cbn [world _cached_analysis context is_running is_paused task_queue
       current_task session_log task_status current_plan current_step_index
       screen_history action_history raw_text text_elements buttons
       screenshot fst snd negb andb orb app].

Lemma poll_owner_run s : poll_owner s = (Ok tt, after_owner s, owner_events s).
Proof.
  unfold after_owner, owner_events, poll_owner.
  now destruct (owner_calls (world s)) as [calls w].
Qed.

Lemma owner_events_neutral s (p : Event -> bool) :
  (forall c, p (EvOwner c) = false) ->
  filter p (owner_events s) = [].
Proof.
  intros Hp. unfold owner_events, poll_owner.
  destruct (owner_calls (world s)) as [calls w]. cbn [trace_of snd].
  induction calls as [|c calls IH]; [reflexivity|].
  cbn [map filter]. now rewrite Hp.
Qed.

(** The loop body, spelled out: the start line, the owner's calls, the
    test of the flags and then one of the two arms. *)
Lemma step_body_run total idx step s :
  step_body total idx step s =
  if negb (is_running (after_owner s)) || is_paused (after_owner s)
  then (Ok (Return false), after_owner s,
        EvLog (LStartingStep idx total)
          :: owner_events s ++ [EvLog LInterrupted])%list
  else
    let arm :=
      match details step with
      | [] => decision_step idx step
      | _ :: _ => deterministic_step total idx step
      end (after_owner s) in
    (result_of arm, state_of arm,
     EvLog (LStartingStep idx total) :: owner_events s ++ trace_of arm)%list.
Proof.
  unfold step_body, bind, log, emit, get. rewrite poll_owner_run.
  destruct (negb (is_running (after_owner s)) || is_paused (after_owner s)).
  - reflexivity.
  - cbv zeta.
    destruct (match details step with
              | [] => decision_step idx step
              | _ :: _ => deterministic_step total idx step
              end (after_owner s)) as [[r1 s1] t1].
    reflexivity.
Qed.

(** ** The action dispatcher *)

(** [execute_action] always returns a pair, for any action and any host. *)
Lemma execute_action_returns a s :
  exists success message s' t,
    execute_action a s = (Ok (success, message), s', t).
Proof.
  unfold execute_action, try_except.
  destruct (dispatch a s) as [[[[b m]|e] s1] t1].
  - now exists b, m, s1, t1.
  - cbn. now eexists _, _, _, _.
Qed.

Lemma dispatch_unknown a s :
  is_known (action_type a) = false ->
  dispatch a s = (Ok (false, "Unknown action type: " ++ action_type a), s, []).
Proof.
  unfold is_known, known_types. cbn [existsb]. intros H.
  repeat (apply orb_false_elim in H; destruct H as [? H]).
  unfold dispatch.
  repeat match goal with
         | E : String.eqb _ _ = false |- _ => rewrite E; clear E
         end.
  reflexivity.
Qed.

(** C6. [execute_action] never raises: for every action and every state it
    returns a flag and a message; it chooses its arm by the type of the
    action alone, a type it has no arm for yields [false] with a message
    naming the type and touches nothing, and an exception raised while
    dispatching a known type comes back as [false] with the message of the
    exception. *)
Theorem execute_action_never_raises a s :
  (exists success message s' t,
      execute_action a s = (Ok (success, message), s', t)) /\
  (is_known (action_type a) = false ->
   execute_action a s =
   (Ok (false, "Unknown action type: " ++ action_type a), s, [])) /\
  (forall e s' t,
      dispatch a s = (Raise e, s', t) ->
      execute_action a s = (Ok (false, "Error: " ++ e), s', t)).
Proof.
  split; [apply execute_action_returns | split].
  - intros H. unfold execute_action, try_except.
    now rewrite (dispatch_unknown a s H).
  - intros e s' t H. unfold execute_action, try_except. rewrite H. cbn.
    now rewrite app_nil_r.
Qed.

(** A dispatch makes at most one call into the host, and changes nothing
    of the agent but the world. *)
Lemma dispatch_frame a s r s' t :
  dispatch a s = (r, s', t) ->
  (t = [] /\ s' = s) \/
  (exists c w, t = [EvCall c (returned r)] /\ s' = with_world w s).
Proof.
  unfold dispatch.
  repeat match goal with
         | |- context [if String.eqb ?x ?y then _ else _] =>
             destruct (String.eqb x y)
         | |- context [if contains ?x ?y then _ else _] =>
             destruct (contains x y)
         end;
    unfold bind, call, ret;
    try (intros [= <- <- <-]; now left);
    match goal with
    | |- context [match ?f (world s) with _ => _ end] =>
        destruct (f (world s)) as [[v|e] w]
    end;
    intros [= <- <- <-]; right; now eexists _, _.
Qed.

Lemma execute_action_frame a s r s' t :
  execute_action a s = (r, s', t) ->
  (t = [] /\ s' = s) \/
  (exists c b w, t = [EvCall c b] /\ s' = with_world w s).
Proof.
  unfold execute_action, try_except.
  destruct (dispatch a s) as [[[x|e] s1] t1] eqn:E;
    apply dispatch_frame in E.
  - intros [= <- <- <-].
    destruct E as [E|(c & w & -> & ->)]; [now left|].
    right. now eexists _, _, _.
  - cbn. intros [= <- <- <-]. rewrite app_nil_r.
    destruct E as [E|(c & w & -> & ->)]; [now left|].
    right. now eexists _, _, _.
Qed.

(** C9. For an action of type click, type, press, wait or scroll the
    dispatcher makes one call into the host and reports success exactly when
    that call returned without raising; what the call returned is dropped (a
    click whose controller answers [false] is still a success); for launch
    and launch_chrome the reported success is the launcher's answer. *)
Theorem controller_result_is_discarded a s :
  (In (action_type a) pointer_types ->
   exists c ok message w,
     execute_action a s = (Ok (ok, message), with_world w s, [EvCall c ok])) /\
  (action_type a = "click" ->
   forall answer w,
     mouse_click (a_x a) (a_y a) (world s) = (Ok answer, w) ->
     execute_action a s =
     (Ok (true, "Clicked at " ++ point (a_x a) (a_y a)), with_world w s,
      [EvCall (CClick (a_x a) (a_y a)) true])) /\
  (action_type a = "launch" ->
   forall answer w,
     launcher_launch_app (get_default (a_app a) EmptyString) (world s)
     = (Ok answer, w) ->
     result_of (execute_action a s)
     = Ok (answer,
           if answer
           then "Launched app: " ++ get_default (a_app a) EmptyString
           else "Failed to launch: " ++ get_default (a_app a) EmptyString)) /\
  (action_type a = "launch_chrome" ->
   forall answer w,
     launcher_launch_chrome (world s) = (Ok answer, w) ->
     result_of (execute_action a s)
     = Ok (answer,
           if answer then "Launched Chrome" else "Failed to launch Chrome")).
Proof.
  repeat split.
  - unfold pointer_types. cbn [In].
    intros [H|[H|[H|[H|[H|[]]]]]];
      unfold execute_action, try_except, dispatch; rewrite <- H;
      cbn [String.eqb Ascii.eqb Bool.eqb];
      try destruct (contains "+" _);
      unfold bind, call, ret;
      match goal with
      | |- context [match ?f (world s) with _ => _ end] =>
          destruct (f (world s)) as [[v|e] w]
      end; cbn; now eexists _, _, _, _.
  - intros H answer w E.
    unfold execute_action, try_except, dispatch. rewrite H.
    cbn [String.eqb Ascii.eqb Bool.eqb].
    unfold bind, call, ret. now rewrite E.
  - intros H answer w E.
    unfold execute_action, try_except, dispatch. rewrite H.
    cbn [String.eqb Ascii.eqb Bool.eqb].
    unfold bind, call, ret. now rewrite E.
  - intros H answer w E.
    unfold execute_action, try_except, dispatch. rewrite H.
    cbn [String.eqb Ascii.eqb Bool.eqb].
    unfold bind, call, ret. now rewrite E.
Qed.

(** ** The perception cache *)

Lemma analyze_cached s obs :
  _cached_analysis s = Some obs ->
  analyze_current_screen false s = (Ok obs, s, []).
Proof.
  intros H. unfold analyze_current_screen, bind, get. cbn. now rewrite H.
Qed.

(** Without a usable cache entry the analysis starts with one capture, and
    nothing after it captures again. *)
Lemma analyze_fresh s force_new :
  force_new = true \/ _cached_analysis s = None ->
  trace_of (analyze_current_screen force_new s) = [EvCapture].
Proof.
  intros H. unfold analyze_current_screen, bind, get, capture, lift, modify, ret.
  cbn.
  assert (E : match negb force_new, _cached_analysis s with
              | true, Some _ => False
              | _, _ => True
              end).
  { destruct H as [-> | ->]; [exact I | now destruct (negb force_new)]. }
  destruct (negb force_new), (_cached_analysis s); try contradiction;
    destruct (capture_full_screen (world s)) as [[shot|e] w]; cbn;
    try reflexivity;
    destruct (extract_text shot); cbn; try reflexivity;
    destruct (extract_text_with_positions shot); cbn; try reflexivity;
    destruct (detect_buttons shot); cbn; reflexivity.
Qed.

(** C5. With an observation in the cache, [analyze_current_screen] without
    [force_new] returns that observation and captures nothing, also when
    called twice in a row; after [clear_cache] the next call, forced or not,
    makes exactly one capture. *)
Theorem cached_observation_is_reused s obs :
  _cached_analysis s = Some obs ->
  analyze_current_screen false s = (Ok obs, s, []) /\
  (let first := analyze_current_screen false s in
   let second := analyze_current_screen false (state_of first) in
   result_of first = Ok obs /\ result_of second = Ok obs /\
   count is_capture (trace_of first ++ trace_of second) = 0%nat) /\
  (forall site force_new,
      count is_capture
        (trace_of (analyze_current_screen force_new
                     (state_of (clear_cache site s)))) = 1%nat).
Proof.
  intros H. split; [now apply analyze_cached | split].
  - cbn zeta. rewrite (analyze_cached s H). cbn [state_of fst snd].
    rewrite (analyze_cached s H). now cbn.
  - intros site force_new.
    rewrite (@analyze_fresh (state_of (clear_cache site s)) force_new);
      [reflexivity | now right].
Qed.

(** ** Task processing *)

(** C8. When the planner answers with an empty plan, task processing returns
    [False] at once: after the invalidation, the capture and the call of the
    planner it only logs the empty plan; no step is started, no action is
    dispatched and the planner is not asked again. *)
Theorem empty_plan_fails_task s shot w1 text elements found w2 :
  capture_full_screen (world s) = (Ok shot, w1) ->
  extract_text shot = Ok text ->
  extract_text_with_positions shot = Ok elements ->
  detect_buttons shot = Ok found ->
  planner_plan_task (current_task s) text w1 = (Ok [], w2) ->
  exists s',
    _process_current_task s =
    (Ok false, s',
     [EvClear BeforePlanning; EvCapture; EvCall CPlanTask true;
      EvLog LEmptyPlan]) /\
    current_plan (context s') = current_plan (context s) /\
    current_step_index (context s') = current_step_index (context s) /\
    action_history (context s') = action_history (context s).
Proof.
  intros Hc Ht He Hb Hp.
  unfold _process_current_task, analyze_current_screen. run.
  rewrite Hc, Ht, He, Hb. run. rewrite Hp.
  eexists. split; [reflexivity | now cbn].
Qed.

(** ** Deterministic steps *)

Lemma calls_only_nil : calls_only (F := F) [].
Proof. constructor. Qed.

Lemma calls_only_one c b : calls_only (F := F) [EvCall c b].
Proof. repeat constructor. Qed.

Lemma calls_only_app t1 t2 :
  calls_only t1 -> calls_only t2 -> calls_only (t1 ++ t2).
Proof. intros H1 H2. apply Forall_app. now split. Qed.

Lemma calls_only_no_detail t :
  calls_only t -> existsb is_detail_success t = false.
Proof.
  induction 1 as [|e t He _ IH]; [reflexivity|].
  cbn [existsb]. rewrite IH. now destruct e.
Qed.

Lemma execute_action_calls_only a s r s' t :
  execute_action a s = (r, s', t) -> calls_only t.
Proof.
  intros H. apply execute_action_frame in H.
  destruct H as [[-> _]|(c & b & w & -> & _)];
    [apply calls_only_nil | apply calls_only_one].
Qed.

Lemma call_calls_only {A : Type} c (f : World -> Outcome A * World) s r s' t :
  call c f s = (r, s', t) -> calls_only t.
Proof.
  intros H. apply call_inv in H. destruct H as (w & _ & _ & ->).
  apply calls_only_one.
Qed.

Lemma exec_click_detail_calls_only detail s r s' t :
  exec_click_detail detail s = (r, s', t) -> calls_only t.
Proof.
  unfold exec_click_detail.
  destruct (split (upper detail)) as [|p0 [|p1 [|p2 ps]]];
    try (run; intros [= <- <- <-]; apply calls_only_nil).
  destruct (py_int p1) as [x|]; [destruct (py_int p2) as [y|]|];
    try (run; intros [= <- <- <-]; apply calls_only_nil).
  run.
  destruct (mouse_move_to x y (world s)) as [[[|]|e1] w1];
    try (intros [= <- <- <-]; repeat constructor).
  run.
  destruct (pyautogui_position w1) as [[pos|e2] w2];
    try (intros [= <- <- <-]; repeat constructor).
  run.
  destruct (mouse_click (Some (fst pos)) (Some (snd pos)) w2) as [[ok|e3] w3];
    intros [= <- <- <-]; repeat constructor.
Qed.

Lemma exec_detail_calls_only detail s r s' t :
  exec_detail detail s = (r, s', t) -> calls_only t.
Proof.
  unfold exec_detail.
  destruct (startswith (upper detail) "WAIT").
  { unfold exec_wait_detail. run.
    destruct (time_sleep _ _) as [[u|e] w]; intros [= <- <- <-];
      repeat constructor. }
  destruct (startswith (upper detail) "CLICK ").
  { apply exec_click_detail_calls_only. }
  intros H. apply bind_inv in H.
  destruct H as [(e & H & _)|(x & s1 & t1 & t2 & H1 & H2 & ->)].
  - now apply execute_action_calls_only in H.
  - apply calls_only_app; [now apply execute_action_calls_only in H1|].
    revert H2. run. intros [= <- <- <-]. apply calls_only_nil.
Qed.

(** The flag after the loop over the details is the flag before it or the
    success of one of the lines. *)
Lemma exec_details_flag ds : forall flag s b s' t,
  exec_details ds flag s = (Ok b, s', t) ->
  b = flag || existsb is_detail_success t.
Proof.
  induction ds as [|d ds IH]; intros flag s b s' t H.
  - revert H. cbn [exec_details]. run. intros [= <- <- <-].
    now rewrite orb_false_r.
  - cbn [exec_details] in H. apply bind_inv in H.
    destruct H as [(e & _ & [=])|(ok & s1 & t1 & t2 & H1 & H2 & ->)].
    apply exec_detail_calls_only, calls_only_no_detail in H1.
    apply bind_inv in H2.
    destruct H2 as [(e & _ & [=])|([] & s2 & t3 & t4 & H3 & H4 & ->)].
    revert H3. unfold emit. intros [= <- <-].
    apply IH in H4. rewrite !existsb_app, H1. cbn [existsb is_detail_success orb].
    rewrite H4. now destruct ok, flag.
Qed.

Lemma deterministic_step_flow total idx step s flow s' t :
  deterministic_step total idx step s = (Ok flow, s', t) ->
  (existsb is_detail_success t = true -> flow = Continue) /\
  (existsb is_detail_success t = false -> (idx < total)%nat ->
   flow = Continue /\ In (EvLog (LStepFailedContinuing idx)) t) /\
  (existsb is_detail_success t = false -> idx = total ->
   flow = Return false /\ In (EvLog LAllFallbackFailed) t).
Proof.
  unfold deterministic_step. intros H. apply bind_inv in H.
  destruct H as [(e & _ & [=])|(b & s1 & t1 & t2 & H1 & H2 & ->)].
  apply exec_details_flag in H1. cbn [orb] in H1. subst b.
  rewrite existsb_app.
  destruct (existsb is_detail_success t1) eqn:E1; cbn [negb andb orb] in *.
  - revert H2. run. intros [= <- <- <-].
    repeat split; intros; try discriminate; reflexivity.
  - destruct (Nat.ltb_spec idx total) as [Hlt|Hge].
    + revert H2. run. intros [= <- <- <-]. cbn [existsb is_detail_success orb].
      repeat split; intros; try discriminate; try lia; try reflexivity.
      apply in_or_app. right. now left.
    + destruct (Nat.eqb_spec idx total) as [Heq|Hne].
      * revert H2. run. intros [= <- <- <-].
        cbn [existsb is_detail_success orb].
        repeat split; intros; try discriminate; try lia; try reflexivity.
        apply in_or_app. right. now left.
      * revert H2. run. intros [= <- <- <-].
        repeat split; intros; try discriminate; try lia; reflexivity.
Qed.

(** The loop body of a step that is not interrupted and has details is the
    deterministic arm, after the start line and the owner's calls. *)
Lemma step_body_deterministic total idx step s r s' t :
  details step <> [] ->
  step_body total idx step s = (r, s', t) ->
  count is_interrupt t = 0%nat ->
  exists t2,
    deterministic_step total idx step (after_owner s) = (r, s', t2) /\
    t = (EvLog (LStartingStep idx total) :: owner_events s ++ t2)%list /\
    existsb is_detail_success (owner_events s) = false.
Proof.
  intros Hd H Hi. rewrite step_body_run in H.
  destruct (negb (is_running (after_owner s)) || is_paused (after_owner s)).
  - exfalso. revert H Hi. intros [= <- <- <-]. unfold count.
    cbn [filter is_interrupt]. rewrite filter_app. cbn [filter is_interrupt].
    rewrite length_app. cbn [List.length]. lia.
  - destruct (details step) as [|d ds] eqn:Ed; [contradiction|].
    cbv zeta in H.
    destruct (deterministic_step total idx step (after_owner s))
      as [[r2 s2] t2] eqn:E.
    revert H. run. intros [= <- <- <-]. exists t2. repeat split.
    destruct (existsb is_detail_success (owner_events s)) eqn:Ex;
      [|reflexivity].
    apply existsb_exists in Ex. destruct Ex as (e & Hin & He).
    assert (Hf : In e (filter is_detail_success (owner_events s)))
      by (apply filter_In; now split).
    rewrite owner_events_neutral in Hf; [contradiction | reflexivity].
Qed.

(** In the runs of the loop body that return, a step with details succeeds
    exactly when one of its detail lines executed successfully. When none
    did and the step is not the last one, the loop logs that the step
    failed and goes on with the next step; when none did and the step is
    the last one, the loop returns [False] and the task fails. (A [WAIT]
    detail whose sleep raises leaves the loop by that exception.) *)
Theorem deterministic_step_succeeds_on_any_detail :
  (forall ds s succeeded s' t,
      exec_details ds false s = (Ok succeeded, s', t) ->
      succeeded = existsb is_detail_success t) /\
  (forall total idx step s flow s' t,
      details step <> [] ->
      step_body total idx step s = (Ok flow, s', t) ->
      count is_interrupt t = 0%nat ->
      (existsb is_detail_success t = true -> flow = Continue) /\
      (existsb is_detail_success t = false -> (idx < total)%nat ->
       flow = Continue /\ In (EvLog (LStepFailedContinuing idx)) t) /\
      (existsb is_detail_success t = false -> idx = total ->
       flow = Return false)) /\
  (forall total idx step rest s s' t,
      step_body total idx step s = (Ok (Return false), s', t) ->
      run_steps total idx (step :: rest) s = (Ok false, s', t)) /\
  (forall total idx step rest s s' t,
      step_body total idx step s = (Ok Continue, s', t) ->
      run_steps total idx (step :: rest) s =
      (result_of (run_steps total (S idx) rest s'),
       state_of (run_steps total (S idx) rest s'),
       (t ++ trace_of (run_steps total (S idx) rest s'))%list)).
Proof.
  repeat apply conj.
  - intros ds s b s' t H. now apply exec_details_flag in H.
  - intros total idx step s flow s' t Hd H Hi.
    destruct (@step_body_deterministic total idx step s (Ok flow) s' t Hd H Hi)
      as (t2 & H2 & -> & H1).
    apply deterministic_step_flow in H2.
    cbn [existsb is_detail_success orb]. rewrite existsb_app, H1. cbn [orb].
    destruct H2 as (Ha & Hb & Hc). repeat split.
    + exact Ha.
    + now apply Hb.
    + right. apply in_or_app. right. now apply Hb.
    + intros Hn He. now apply Hc.
  - intros total idx step rest s s' t H. cbn [run_steps].
    rewrite (@bind_ok _ _ _ _ _ _ _ _ H). run. now rewrite app_nil_r.
  - intros total idx step rest s s' t H. cbn [run_steps].
    now rewrite (@bind_ok _ _ _ _ _ _ _ _ H).
Qed.

(** ** Decision-driven steps *)

Lemma host_only_nil : host_only (F := F) [].
Proof. constructor. Qed.

Lemma host_only_app t1 t2 : host_only t1 -> host_only t2 -> host_only (t1 ++ t2).
Proof. intros H1 H2. apply Forall_app. now split. Qed.

Lemma calls_only_host_only t : calls_only t -> host_only t.
Proof.
  apply Forall_impl. intros e He. unfold is_host. now rewrite He.
Qed.

Lemma owner_events_host_only s : host_only (owner_events s).
Proof.
  unfold owner_events, poll_owner.
  destruct (owner_calls (world s)) as [calls w]. cbn [trace_of snd].
  induction calls as [|c calls IH]; constructor; [reflexivity | exact IH].
Qed.

Lemma analyze_host_only force_new s r s' t :
  analyze_current_screen force_new s = (r, s', t) -> host_only t.
Proof.
  unfold analyze_current_screen. run.
  destruct (negb force_new), (_cached_analysis s);
    try (intros [= <- <- <-]; apply host_only_nil);
    destruct (capture_full_screen (world s)) as [[shot|e] w];
    try (intros [= <- <- <-]; repeat constructor);
    destruct (extract_text shot);
    try (intros [= <- <- <-]; repeat constructor);
    destruct (extract_text_with_positions shot);
    try (intros [= <- <- <-]; repeat constructor);
    destruct (detect_buttons shot);
    intros [= <- <- <-]; repeat constructor.
Qed.

Lemma filter_host_only (p : Event -> bool) t :
  loop_event p -> host_only t -> filter p t = [].
Proof.
  intros Hp. induction 1 as [|e t He _ IH]; [reflexivity|].
  cbn [filter]. now rewrite (Hp e He).
Qed.

Lemma existsb_host_only (p : Event -> bool) t :
  loop_event p -> host_only t -> existsb p t = false.
Proof.
  intros Hp. induction 1 as [|e t He _ IH]; [reflexivity|].
  cbn [existsb]. now rewrite (Hp e He).
Qed.

Lemma steps_started_host_only t : host_only t -> steps_started t = [].
Proof.
  induction 1 as [|e t He _ IH]; [reflexivity|].
  unfold steps_started in *. cbn [flat_map]. rewrite IH.
  now destruct e as [| | | | | |[]].
Qed.

Lemma steps_started_app t1 t2 :
  steps_started (t1 ++ t2) = (steps_started t1 ++ steps_started t2)%list.
Proof. apply flat_map_app. Qed.

Lemma count_app (p : Event -> bool) t1 t2 :
  count p (t1 ++ t2) = (count p t1 + count p t2)%nat.
Proof. unfold count. now rewrite filter_app, length_app. Qed.

Lemma count_host_only (p : Event -> bool) t :
  loop_event p -> host_only t -> count p t = 0%nat.
Proof. intros Hp H. unfold count. now rewrite filter_host_only. Qed.

Lemma loop_event_dispatch : loop_event (F := F) is_dispatch.
Proof. now intros [| | | | | |]. Qed.

Lemma loop_event_failed_dispatch : loop_event (F := F) is_failed_dispatch.
Proof. now intros [| | | | | |]. Qed.

Lemma loop_event_interrupt : loop_event (F := F) is_interrupt.
Proof. now intros [| | | | | |]. Qed.

Lemma loop_event_clear site : loop_event (F := F) (is_clear site).
Proof. now intros [| | | | | |]. Qed.

(** Splits a run of [bind m k] into the run of [m], named here, and the run
    of [k], which keeps the name of the hypothesis. *)
Tactic Notation "inv_bind" hyp(H) "as" ident(x) ident(s1) ident(t1) ident(H1) :=
  let e := fresh "e" in
  let t2 := fresh "t" in
  apply bind_inv in H;
  destruct H as [(e & H & ->)|(x & s1 & t1 & t2 & H1 & H & ->)].

(** [decide_next_action] raises on every call, before the model is asked:
    [current_step] is no parameter of [get_action_decision_prompt]. *)
Lemma decide_next_action_raises task current_step screen s :
  exists e, decide_next_action task current_step screen s = (Raise e, s, []).
Proof. eexists. reflexivity. Qed.

Lemma decide_next_action_inv task current_step screen s r s' t :
  decide_next_action task current_step screen s = (r, s', t) ->
  (exists e, r = Raise e) /\ s' = s /\ t = [].
Proof.
  destruct (decide_next_action_raises task current_step screen s) as (e & ->).
  intros [= <- <- <-]. split; [now exists e | now split].
Qed.

(** The keywords of [handle_error] are the parameters of its prompt. *)
Lemma handle_error_run task a screen s :
  handle_error task a screen s
  = call (CGenerate (ErrorHandling task a screen))
      (ollama_generate (ErrorHandling task a screen)) s.
Proof.
  unfold handle_error, bind, call. cbn.
  now destruct (ollama_generate (ErrorHandling task a screen) (world s)).
Qed.

Lemma analyze_captures force_new s r s' t :
  analyze_current_screen force_new s = (r, s', t) ->
  Forall (fun e => is_capture e = true) t.
Proof.
  unfold analyze_current_screen. run.
  destruct (negb force_new), (_cached_analysis s);
    try (intros [= <- <- <-]; constructor);
    destruct (capture_full_screen (world s)) as [[shot|e] w];
    try (intros [= <- <- <-]; repeat constructor);
    destruct (extract_text shot);
    try (intros [= <- <- <-]; repeat constructor);
    destruct (extract_text_with_positions shot);
    try (intros [= <- <- <-]; repeat constructor);
    destruct (detect_buttons shot);
    intros [= <- <- <-]; repeat constructor.
Qed.

(** So a decision-driven step never gets to an action: whatever the host
    does, it raises, and all it leaves in the trace is the invalidation
    before a step after the first and the capture of the screen. *)
Lemma decision_step_raises idx step s r s' t :
  decision_step idx step s = (r, s', t) ->
  (exists e, r = Raise e) /\
  Forall (fun e => is_clear BeforeStep e || is_capture e = true) t.
Proof.
  unfold decision_step. intros H.
  inv_bind H as u sa ta Ha.
  { split; [now eexists|]. revert H.
    destruct (1 <? idx)%nat; run; discriminate. }
  assert (Hta : Forall (fun e => is_clear BeforeStep e || is_capture e = true) ta).
  { revert Ha. destruct (1 <? idx)%nat; run; intros [= <- <- <-];
      repeat constructor. }
  clear Ha.
  assert (Hc : forall tb : list (Event (F := F)),
               Forall (fun e => is_capture e = true) tb ->
               Forall (fun e => is_clear BeforeStep e || is_capture e = true) tb).
  { intros tb. apply Forall_impl. intros e ->. apply orb_true_r. }
  inv_bind H as analysis sb tb Hb.
  { split; [now eexists|]. apply Forall_app. split; [exact Hta|].
    apply Hc. exact (analyze_captures _ _ H). }
  apply analyze_captures, Hc in Hb.
  inv_bind H as u1 sc tc Hs; [revert H; run; discriminate|].
  revert Hs. run. intros [= <- <- <-].
  inv_bind H as sd' sd td Hd; [revert H; run; discriminate|].
  revert Hd. run. intros [= <- <- <-].
  inv_bind H as action se te He.
  - split; [now eexists|].
    apply decide_next_action_inv in H. destruct H as (_ & _ & ->).
    rewrite !app_nil_r. apply Forall_app. now split.
  - exfalso. apply decide_next_action_inv in He.
    now destruct He as ((e & [=]) & _).
Qed.

Lemma steps_started_cons idx total (t : list (Event (F := F))) :
  steps_started (EvLog (LStartingStep idx total) :: t) = idx :: steps_started t.
Proof. reflexivity. Qed.

Lemma count_cons_false (p : Event (F := F) -> bool) e t :
  p e = false -> count p (e :: t) = count p t.
Proof. intros H. unfold count. cbn [filter]. now rewrite H. Qed.

Lemma count_none (p q : Event (F := F) -> bool) t :
  (forall e, q e = true -> p e = false) ->
  Forall (fun e => q e = true) t -> count p t = 0%nat.
Proof.
  intros Hpq. unfold count. induction 1 as [|e t He _ IH]; [reflexivity|].
  cbn [filter]. now rewrite (Hpq e He).
Qed.

Lemma steps_started_none (t : list (Event (F := F))) :
  Forall (fun e => is_clear BeforeStep e || is_capture e = true) t ->
  steps_started t = [].
Proof.
  induction 1 as [|e t He _ IH]; [reflexivity|].
  unfold steps_started in *. cbn [flat_map]. rewrite IH.
  now destruct e as [| | | | | |[]].
Qed.

(** A plan that begins with a decision-driven step is never executed: on an
    agent that is neither paused nor stopped [_execute_plan] leaves by the
    exception of step 1, with no action dispatched and the model not asked. *)
Lemma decision_plan_raises s step rest :
  current_plan (context s) = step :: rest ->
  details step = [] ->
  is_running (after_owner s) = true ->
  is_paused (after_owner s) = false ->
  exists e s' t,
    _execute_plan s = (Raise e, s', t) /\
    steps_started t = [1%nat] /\
    count is_dispatch t = 0%nat /\
    count is_model_call t = 0%nat.
Proof.
  intros Hp Hd Hr Hq. unfold _execute_plan, bind at 1, get. rewrite Hp.
  cbn [run_steps]. unfold bind at 1. rewrite step_body_run, Hr, Hq, Hd.
  cbn [negb orb]. cbv zeta.
  destruct (decision_step 1 step (after_owner s)) as [[r1 s1] t1] eqn:E.
  destruct (decision_step_raises _ _ _ E) as ((e & ->) & Ht).
  run. exists e, s1. eexists. split; [reflexivity|].
  assert (Ho : forall p : Event (F := F) -> bool,
             loop_event p -> count p (owner_events s) = 0%nat).
  { intros p Hl. apply count_host_only; [exact Hl | apply owner_events_host_only]. }
  assert (Hk : forall p : Event (F := F) -> bool,
             (forall e0, is_clear BeforeStep e0 || is_capture e0 = true ->
                         p e0 = false) ->
             count p t1 = 0%nat).
  { intros p Hpq. now apply (count_none p _ Hpq). }
  split; [|split].
  - rewrite steps_started_cons, steps_started_app,
      (steps_started_host_only (owner_events_host_only s)).
    now rewrite (steps_started_none Ht).
  - rewrite count_cons_false by reflexivity. rewrite count_app.
    rewrite (Ho _ loop_event_dispatch), Hk; [reflexivity|].
    now intros [| | | | | |].
  - rewrite count_cons_false by reflexivity. rewrite count_app.
    assert (Hm : count is_model_call (owner_events s) = 0%nat).
    { unfold owner_events, poll_owner.
      destruct (owner_calls (world s)) as [calls w]. cbn [trace_of snd].
      unfold count. now induction calls. }
    rewrite Hm, Hk; [reflexivity|].
    now intros [| | | | | |].
Qed.

(** ** Pause and stop *)

Lemma owner_call_frame calls : forall s,
  only_flags_differ s (fold_left owner_call calls s).
Proof.
  induction calls as [|c calls IH]; intros s; [now repeat split|].
  cbn [fold_left]. destruct (IH (owner_call s c)) as (H1 & H2 & H3 & H4 & H5).
  unfold only_flags_differ. rewrite H1, H2, H3, H4, H5.
  now destruct c.
Qed.

Lemma after_owner_frame s : only_flags_differ s (after_owner s).
Proof.
  unfold after_owner, poll_owner.
  destruct (owner_calls (world s)) as [calls w]. cbn [state_of fst snd].
  destruct (owner_call_frame calls (with_world w s)) as (H1 & H2 & H3 & H4 & H5).
  unfold only_flags_differ. now rewrite H1, H2, H3, H4, H5.
Qed.

Lemma agent_turn_idle s :
  task_queue (after_owner s) = [] ->
  exists go_on s', agent_turn s = (Ok go_on, s', owner_events s).
Proof.
  intros Hq. unfold agent_turn.
  unfold bind at 1. rewrite poll_owner_run.
  unfold bind at 1, get. cbv beta iota. rewrite Hq.
  destruct (is_running (after_owner s)), (is_paused (after_owner s));
    run; rewrite ?app_nil_r; now eexists _, _.
Qed.

Lemma agent_turn_failed s task queue s2 t2 :
  is_running (after_owner s) = true ->
  is_paused (after_owner s) = false ->
  task_queue (after_owner s) = task :: queue ->
  _process_current_task (with_task queue (Some task) (after_owner s))
  = (Ok false, s2, t2) ->
  exists s' t,
    agent_turn s = (Ok true, s', t) /\
    task_status (context (state_of (Ok true, s', t))) = StatusFailed /\
    current_task (state_of (Ok true, s', t)) = None /\
    task_queue (state_of (Ok true, s', t)) = task_queue s2.
Proof.
  intros Hr Hp Hq Hproc. unfold agent_turn.
  unfold bind at 1. rewrite poll_owner_run.
  unfold bind at 1, get. cbv beta iota. rewrite Hr, Hp, Hq. cbn [negb].
  unfold bind at 1, modify at 1. cbv beta iota.
  unfold bind at 1. rewrite Hproc. run.
  eexists _, _. split; [reflexivity|]. now repeat split.
Qed.

(** C2, as the code has it. When the loop finds the agent paused or stopped
    at step [idx], it returns [False] there and then: the trace holds the
    start line, the owner's calls and the interruption line, so no action of
    the step is executed, and nothing of the agent but the flags (and the
    world) has changed, the cursor of the context included. The agent loop
    then records the task as failed and forgets it, and a turn of the agent
    loop with an empty queue, paused or resumed, starts no step: the plan is
    not entered again. *)
Theorem pause_ends_the_plan total idx step rest s :
  negb (is_running (after_owner s)) || is_paused (after_owner s) = true ->
  run_steps total idx (step :: rest) s =
  (Ok false, after_owner s,
   EvLog (LStartingStep idx total) :: owner_events s ++ [EvLog LInterrupted])
  /\
  only_flags_differ s (after_owner s) /\
  count is_call (owner_events s) = 0%nat /\
  (forall s0 task queue s2 t2,
      is_running (after_owner s0) = true ->
      is_paused (after_owner s0) = false ->
      task_queue (after_owner s0) = task :: queue ->
      _process_current_task (with_task queue (Some task) (after_owner s0))
      = (Ok false, s2, t2) ->
      task_status (context (state_of (agent_turn s0))) = StatusFailed /\
      current_task (state_of (agent_turn s0)) = None /\
      task_queue (state_of (agent_turn s0)) = task_queue s2) /\
  (forall s0,
      task_queue (after_owner s0) = [] ->
      trace_of (agent_turn s0) = owner_events s0 /\
      steps_started (trace_of (agent_turn s0)) = []).
Proof.
  intros Hflags. split; [|split; [|split; [|split]]].
  - cbn [run_steps]. unfold bind at 1. rewrite step_body_run, Hflags.
    run. now rewrite app_nil_r.
  - apply after_owner_frame.
  - unfold count. now rewrite owner_events_neutral.
  - intros s0 task queue s2 t2 Hr Hp Hq Hproc.
    destruct (agent_turn_failed s0 Hr Hp Hq Hproc) as (s3 & t3 & E & H).
    rewrite E. exact H.
  - intros s0 Hq. destruct (agent_turn_idle s0 Hq) as (go & s1 & E).
    rewrite E. cbn [trace_of snd]. split; [reflexivity|].
    apply steps_started_host_only, owner_events_host_only.
Qed.

(** ** More on the action grammar *)

Lemma upper_lower_char (c : ascii) : upper_char (lower_char c) = upper_char c.
Proof. destruct c as [[] [] [] [] [] [] [] []]; reflexivity. Qed.

Lemma upper_lower (line : string) : upper (lower line) = upper line.
Proof.
  induction line as [|c r IH]; [reflexivity|].
  now rewrite lower_cons, !upper_cons, upper_lower_char, IH.
Qed.

Lemma is_space_lower_char (c : ascii) : is_space (lower_char c) = is_space c.
Proof. destruct c as [[] [] [] [] [] [] [] []]; reflexivity. Qed.

Lemma is_empty_lower (line : string) : is_empty (lower line) = is_empty line.
Proof. destruct line; reflexivity. Qed.

Lemma lower_lstrip (line : string) : lstrip (lower line) = lower (lstrip line).
Proof.
  induction line as [|c r IH]; [reflexivity|].
  rewrite lower_cons. cbn [lstrip].
  rewrite is_space_lower_char. destruct (is_space c); [exact IH | reflexivity].
Qed.

Lemma lower_rstrip (line : string) : rstrip (lower line) = lower (rstrip line).
Proof.
  induction line as [|c r IH]; [reflexivity|].
  rewrite lower_cons. cbn [rstrip].
  rewrite IH, is_empty_lower, is_space_lower_char.
  destruct (is_space c && is_empty (rstrip r)); reflexivity.
Qed.

Lemma lower_strip (line : string) : strip (lower line) = lower (strip line).
Proof. unfold strip. now rewrite lower_lstrip, lower_rstrip. Qed.

(** Splits the goal along the tests of the parser. *)
Ltac parse_cases :=
  repeat match goal with
         | |- context [if ?b then _ else _] => destruct b
         | |- context [match split ?x with _ => _ end] =>
             destruct (split x) as [|? [|? [|? ?]]]
         | |- context [match py_int ?x with _ => _ end] => destruct (py_int x)
         end.

(** X1. The parser reads a line through its stripped, upper-cased copy only:
    two lines with the same copy parse to the same action, unless they parse
    to the unknown action (which keeps the raw line). In particular a line
    and its upper-cased and lower-cased forms parse alike. *)
Theorem parse_depends_on_upper_line (l1 l2 : string) :
  upper (strip l1) = upper (strip l2) ->
  a_type (_parse_action l1) <> Some "unknown" ->
  _parse_action l2 = _parse_action l1 /\
  _parse_action (upper l1) = _parse_action l1 /\
  _parse_action (lower l1) = _parse_action l1.
Proof.
  assert (G : forall u v : string,
             upper (strip u) = upper (strip v) ->
             a_type (_parse_action u) <> Some "unknown" ->
             _parse_action v = _parse_action u).
  { intros u v E. unfold _parse_action. rewrite <- E.
    parse_cases; intros H; try reflexivity; exfalso; now apply H. }
  intros E H. repeat split.
  - now apply G.
  - apply G; [|exact H]. now rewrite upper_strip, upper_idempotent.
  - apply G; [|exact H]. now rewrite lower_strip, upper_lower.
Qed.

(** X2. Every click action the parser builds carries both coordinates, read
    from the second and third word of the line; a CLICK line with fewer than
    three words, or with a word [int()] rejects in one of the two places,
    is the unknown action with the raw line. *)
Theorem parsed_click_has_coordinates (line : string) :
  startswith (upper (strip line)) "CLICK" = true ->
  (exists p0 p1 p2 rest x y,
      split (upper (strip line)) = p0 :: p1 :: p2 :: rest /\
      py_int p1 = Some x /\ py_int p2 = Some y /\
      _parse_action line = click_action x y) \/
  ((forall p0 p1 p2 rest x y,
       split (upper (strip line)) = p0 :: p1 :: p2 :: rest ->
       py_int p1 = Some x -> py_int p2 = Some y -> False) /\
   _parse_action line = unknown_action line).
Proof.
  intros H. unfold _parse_action. rewrite H.
  destruct (split (upper (strip line))) as [|p0 [|p1 [|p2 rest]]] eqn:E;
    try (right; split; [intros; discriminate | reflexivity]).
  destruct (py_int p1) as [x|] eqn:E1; [destruct (py_int p2) as [y|] eqn:E2|].
  - left. now exists p0, p1, p2, rest, x, y.
  - right. split; [|reflexivity]. intros ? ? ? ? ? ? [= <- <- <- <-] ? ?.
    congruence.
  - right. split; [|reflexivity]. intros ? ? ? ? ? ? [= <- <- <- <-] ? ?.
    congruence.
Qed.

Lemma prefix_cons_inv (c : ascii) (p s : string) :
  prefix (String c p) s = true -> exists r, s = String c r.
Proof.
  destruct s as [|d r]; [discriminate|]. cbn [prefix].
  destruct (ascii_dec c d) as [->|]; [now exists r | discriminate].
Qed.

(** Two keywords with different first letters cannot both start a line. *)
Lemma startswith_first_char (s : string) (c d : ascii) (p q : string) :
  c <> d ->
  startswith s (String c p) = true -> startswith s (String d q) = false.
Proof.
  unfold startswith. intros Hcd H.
  destruct (prefix_cons_inv _ _ _ H) as [r ->]. cbn [prefix].
  destruct (ascii_dec d c) as [->|]; [contradiction | reflexivity].
Qed.

(** X3. A line whose keyword is WAIT always parses to a wait action: its
    duration is the float read from the second word, and the integer 2 when
    there is no second word or [float()] rejects it. *)
Theorem parsed_wait_has_duration (line : string) :
  startswith (upper (strip line)) "WAIT" = true ->
  exists d,
    _parse_action line = wait_action d /\
    ((exists p0 tok rest f,
         split (upper (strip line)) = p0 :: tok :: rest /\
         py_float tok = Some f /\ d = NFloat f) \/
     (d = NInt 2 /\
      forall p0 tok rest,
        split (upper (strip line)) = p0 :: tok :: rest -> py_float tok = None)).
Proof.
  intros H. unfold _parse_action.
  rewrite (@startswith_first_char _ "W"%char "C"%char "AIT" "LICK" ltac:(discriminate) H),
    (@startswith_first_char _ "W"%char "T"%char "AIT" "YPE" ltac:(discriminate) H),
    (@startswith_first_char _ "W"%char "P"%char "AIT" "RESS" ltac:(discriminate) H), H.
  eexists. split; [reflexivity|]. unfold wait_duration.
  destruct (split (upper (strip line))) as [|p0 [|tok rest]] eqn:E;
    try (right; split; [reflexivity | intros; discriminate]).
  destruct (py_float tok) as [f|] eqn:Ef.
  - left. now exists p0, tok, rest, f.
  - right. split; [reflexivity|]. now intros ? ? ? [= <- <- <-].
Qed.

(** X4. The direction of a parsed scroll action is [up] or [down], and it is
    [up] exactly when the letters UP occur anywhere in the upper-cased line,
    inside another word too. *)
Theorem parsed_scroll_direction (line : string) :
  startswith (upper (strip line)) "SCROLL" = true ->
  _parse_action line =
  scroll_action (if contains "UP" (upper (strip line)) then "up" else "down").
Proof.
  intros H. unfold _parse_action.
  rewrite (@startswith_first_char _ "S"%char "C"%char "CROLL" "LICK" ltac:(discriminate) H),
    (@startswith_first_char _ "S"%char "T"%char "CROLL" "YPE" ltac:(discriminate) H),
    (@startswith_first_char _ "S"%char "P"%char "CROLL" "RESS" ltac:(discriminate) H),
    (@startswith_first_char _ "S"%char "W"%char "CROLL" "AIT" ltac:(discriminate) H), H.
  reflexivity.
Qed.

(** X5. The command of a parsed run action and the application of a parsed
    launch action are in upper case, whatever the letter case of the line;
    an application whose upper-cased name holds CHROME gives launch_chrome
    instead. *)
Theorem parsed_command_is_uppercased (line : string) :
  (forall cmd,
      a_type (_parse_action line) = Some "run" ->
      a_cmd (_parse_action line) = Some cmd -> upper cmd = cmd) /\
  (forall app,
      a_type (_parse_action line) = Some "launch" ->
      a_app (_parse_action line) = Some app ->
      upper app = app /\ contains "CHROME" app = false).
Proof.
  assert (E : forall k, upper (unquote (strip (drop k (upper (strip line)))))
                        = unquote (strip (drop k (upper (strip line))))).
  { intros k.
    now rewrite <- unquote_upper, <- upper_strip, <- upper_drop,
                upper_idempotent. }
  split.
  - intros cmd. unfold _parse_action.
    parse_cases; try discriminate. intros _ [= <-]. apply (E 3%nat).
  - intros app. unfold _parse_action.
    destruct (startswith (upper (strip line)) "CLICK");
      [parse_cases; discriminate|].
    destruct (startswith (upper (strip line)) "TYPE");
      [parse_cases; discriminate|].
    destruct (startswith (upper (strip line)) "PRESS");
      [parse_cases; discriminate|].
    destruct (startswith (upper (strip line)) "WAIT"); [discriminate|].
    destruct (startswith (upper (strip line)) "SCROLL"); [discriminate|].
    destruct (startswith (upper (strip line)) "RUN"); [discriminate|].
    destruct (startswith (upper (strip line)) "LAUNCH"); [|discriminate].
    cbv zeta. rewrite (E 6%nat).
    destruct (contains "CHROME" _) eqn:Ec; [discriminate|].
    intros _ [= <-]. split; [apply (E 6%nat) | exact Ec].
Qed.


Lemma split_from_head (s : string) : forall (c : ascii) (cur : string),
  exists tok rest, split_from (String c cur) s = String c tok :: rest.
Proof.
  induction s as [|d s IH]; intros c cur; cbn [split_from is_empty].
  - now eexists _, _.
  - destruct (is_space d); [now eexists _, _|].
    cbn [append]. apply IH.
Qed.

Lemma py_int_quoted (r : string) : py_int (String dquote r) = None.
Proof.
  unfold py_int, strip. cbn [lstrip rstrip].
  change (is_space dquote) with false. cbn [andb]. reflexivity.
Qed.

Lemma click_element_line_parts (element : string) :
  exists tail,
    upper (strip (click_element_line element))
    = "CLICK_ELEMENT " ++ String dquote tail /\
    upper (click_element_line element)
    = "CLICK_ELEMENT " ++ String dquote (upper (element ++ String dquote EmptyString)).
Proof.
  exists (upper (rstrip (element ++ String dquote EmptyString))).
  split; [|reflexivity].
  unfold click_element_line, quoted, strip.
  cbn [append lstrip rstrip].
  repeat (match goal with
          | |- context [is_space ?c] =>
              let b := eval vm_compute in (is_space c) in
              change (is_space c) with b
          end; cbn [andb is_empty]).
  reflexivity.
Qed.

(** X7. A detail line [CLICK_ELEMENT "element"], which is what the fallback
    planner writes for click tasks and for tasks it does not recognise, is
    never acted on: for every element it parses to the unknown action, so
    the detail fails without any call into the host. *)
Theorem click_element_detail_always_fails (element : string) s :
  _parse_action (click_element_line element)
  = unknown_action (click_element_line element) /\
  exists s',
    exec_detail (click_element_line element) s = (Ok false, s', []) /\
    world s' = world s /\
    _cached_analysis s' = _cached_analysis s.
Proof.
  destruct (click_element_line_parts element) as (tail & E1 & E2).
  assert (P : _parse_action (click_element_line element)
              = unknown_action (click_element_line element)).
  { unfold _parse_action. rewrite E1.
    change (startswith ("CLICK_ELEMENT " ++ String dquote tail) "CLICK")
      with true. cbv iota.
    unfold split. cbn [append split_from is_empty].
    repeat (match goal with
            | |- context [is_space ?c] =>
                let b := eval vm_compute in (is_space c) in
                change (is_space c) with b
            end; cbn [andb is_empty append split_from]).
    destruct (split_from_head tail dquote EmptyString) as (tok & rest & ->).
    rewrite py_int_quoted. now destruct rest. }
  split; [exact P|].
  unfold exec_detail. rewrite E2.
  change (startswith ("CLICK_ELEMENT " ++ _) "WAIT") with false.
  change (startswith ("CLICK_ELEMENT " ++ _) "CLICK ") with false.
  cbv iota. rewrite P. unfold bind, execute_action, try_except.
  rewrite dispatch_unknown by reflexivity. run.
  eexists. split; [reflexivity|]. now split.
Qed.

(** ** More on the dispatcher *)

Lemma take_all (n : nat) (text : string) :
  (String.length text <= n)%nat -> take n text = text.
Proof.
  revert n. induction text as [|c r IH]; intros [|n] H; try reflexivity.
  - cbn in H. lia.
  - cbn [take]. f_equal. apply IH. cbn in H. lia.
Qed.

Lemma length_take (n : nat) (text : string) :
  (n <= String.length text)%nat -> String.length (take n text) = n.
Proof.
  revert text. induction n as [|n IH]; intros [|c r] H; try reflexivity.
  - cbn in H. lia.
  - cbn [take String.length]. f_equal. apply IH. cbn in H. lia.
Qed.

(** X8. Whatever the action, [execute_action] makes at most one call into
    the host (the capture-and-save of the screenshot arm counting as one)
    and leaves the agent as it was but for the world: the flags, the queue,
    the task in hand, the cache, the context and the session log are
    untouched. *)
Theorem execute_action_touches_only_the_world a s r s' t :
  execute_action a s = (r, s', t) ->
  (List.length t <= 1)%nat /\
  calls_only t /\
  (exists w, s' = with_world w s).
Proof.
  intros H. apply execute_action_frame in H.
  destruct H as [[-> ->]|(c & b & w & -> & ->)].
  - repeat split; [cbn; lia | constructor |].
    exists (world s). now destruct s.
  - repeat split; [cbn; lia | repeat constructor | now exists w].
Qed.

(** X9. The message of a type action that went through shows the text
    itself when it has at most 20 characters, and otherwise its first 20
    characters followed by three dots. *)
Theorem typed_message_preview a s u w :
  action_type a = "type" ->
  keyboard_type_text (get_default (a_text a) EmptyString) (world s) = (Ok u, w) ->
  let text := get_default (a_text a) EmptyString in
  ((String.length text <= 20)%nat ->
   result_of (execute_action a s) = Ok (true, "Typed text: " ++ text)) /\
  ((20 < String.length text)%nat ->
   result_of (execute_action a s)
   = Ok (true, "Typed text: " ++ take 20 text ++ "...") /\
   String.length (take 20 text) = 20%nat).
Proof.
  intros Hty Hcall text.
  assert (E : result_of (execute_action a s)
              = Ok (true, "Typed text: " ++ take 20 text ++
                          (if (20 <? String.length text)%nat
                           then "..." else EmptyString))).
  { unfold execute_action, try_except, dispatch. rewrite Hty.
    cbn [String.eqb Ascii.eqb Bool.eqb].
    unfold bind, call, ret. now rewrite Hcall. }
  rewrite E. split; intros H.
  - destruct (Nat.ltb_spec 20 (String.length text)) as [H'|_]; [lia|].
    rewrite take_all by exact H.
    replace (text ++ EmptyString) with text; [reflexivity|].
    clear. induction text as [|c r IH]; [reflexivity|].
    cbn [append]. now rewrite <- IH.
  - destruct (Nat.ltb_spec 20 (String.length text)) as [_|H']; [|lia].
    split; [reflexivity|]. apply length_take. lia.
Qed.

(** X10. [execute_sequence] runs the actions in order and stops after the
    first one that fails: there are never more results than actions, every
    result but the last is a success, and when fewer results than actions
    come back the last result is a failure. *)
Theorem execute_sequence_stops_at_first_failure d actions : forall s results s' t,
  execute_sequence d actions s = (Ok results, s', t) ->
  (List.length results <= List.length actions)%nat /\
  Forall (fun r => fst r = true) (removelast results) /\
  ((List.length results < List.length actions)%nat ->
   exists done failed, results = (done ++ [failed])%list /\ fst failed = false) /\
  (actions <> [] -> results <> []).
Proof.
  induction actions as [|a rest IH]; intros s results s' t H.
  - revert H. cbn [execute_sequence]. run. intros [= <- <- <-].
    repeat split; try constructor; try (cbn; lia). now intros [].
  - cbn [execute_sequence] in H.
    apply bind_inv in H.
    destruct H as [(e & _ & [=])|(r & s1 & t1 & t2 & H1 & H & ->)].
    destruct (fst r) eqn:Er; cbn [negb] in H.
    + apply bind_inv in H.
      destruct H as [(e & _ & [=])|(u & s2 & t3 & t4 & _ & H & ->)].
      apply bind_inv in H.
      destruct H as [(e & _ & [=])|(rs & s3 & t5 & t6 & H2 & H & ->)].
      revert H. run. intros [= <- <- <-].
      destruct (IH _ _ _ _ H2) as (Hlen & Hall & Hfail & Hne).
      repeat split.
      * cbn [List.length]. lia.
      * destruct rs as [|r' rs']; [constructor|].
        change (removelast (r :: r' :: rs')) with (r :: removelast (r' :: rs')).
        constructor; [exact Er | exact Hall].
      * cbn [List.length]. intros Hlt.
        destruct Hfail as (done & failed & -> & Hf); [lia|].
        now exists (r :: done), failed.
      * discriminate.
    + revert H. run. intros [= <- <- <-].
      repeat split.
      * cbn [List.length]. lia.
      * constructor.
      * intros _. now exists [], r.
      * discriminate.
Qed.

(** ** Searching the screen *)

Lemma contains_empty (text : string) : contains EmptyString text = true.
Proof. now destruct text. Qed.

Lemma filter_all {A : Type} (p : A -> bool) (l : list A) :
  (forall x, p x = true) -> filter p l = l.
Proof.
  intros H. induction l as [|x l IH]; [reflexivity|].
  cbn [filter]. now rewrite H, IH.
Qed.

Lemma find_element_by_text_run text case_sensitive partial_match s :
  find_element_by_text text case_sensitive partial_match s =
  match analyze_current_screen false s with
  | (Ok analysis, s', t) =>
      (Ok (map with_center
             (filter (element_matches text case_sensitive partial_match)
                (text_elements analysis))), s', t)
  | (Raise e, s', t) => (Raise e, s', t)
  end.
Proof.
  unfold find_element_by_text, bind, ret.
  destruct (analyze_current_screen false s) as [[[analysis|e] s'] t];
    [now rewrite app_nil_r | reflexivity].
Qed.

(** X11. [find_element_by_text] reads the screen through the cache: with an
    observation cached it captures nothing, leaves the agent as it is and
    returns, in their order on the screen, exactly the text elements of that
    observation that pass the test; right after [clear_cache] it makes one
    capture. *)
Theorem find_element_reads_the_cache text case_sensitive partial_match s obs :
  _cached_analysis s = Some obs ->
  find_element_by_text text case_sensitive partial_match s =
  (Ok (map with_center
         (filter (element_matches text case_sensitive partial_match)
            (text_elements obs))), s, []) /\
  forall site,
    count is_capture
      (trace_of (find_element_by_text text case_sensitive partial_match
                   (state_of (clear_cache site s)))) = 1%nat.
Proof.
  intros H. split.
  - now rewrite find_element_by_text_run, (analyze_cached s H).
  - intros site. rewrite find_element_by_text_run.
    pose proof (@analyze_fresh (state_of (clear_cache site s)) false
                  (or_intror eq_refl)) as E.
    destruct (analyze_current_screen false (state_of (clear_cache site s)))
      as [[[analysis|e] s'] t]; cbn [trace_of snd] in *; now rewrite E.
Qed.

(** X12. Searching for the empty text returns every text element of the
    observation, whatever the two options. *)
Theorem find_empty_text_matches_everything case_sensitive partial_match
    s analysis s' t :
  analyze_current_screen false s = (Ok analysis, s', t) ->
  find_element_by_text EmptyString case_sensitive partial_match s =
  (Ok (map with_center (text_elements analysis)), s', t).
Proof.
  intros H. rewrite find_element_by_text_run, H.
  rewrite filter_all; [reflexivity|].
  intros elem. unfold element_matches.
  destruct case_sensitive, partial_match; cbn [lower map_str];
    now rewrite contains_empty.
Qed.

(** X13. Without [case_sensitive] the search ignores the letter case of the
    text looked for, and with [partial_match] it returns every element it
    returns without it. *)
Theorem find_element_ignores_case text partial_match s :
  find_element_by_text (upper text) false partial_match s
  = find_element_by_text text false partial_match s /\
  find_element_by_text (lower text) false partial_match s
  = find_element_by_text text false partial_match s /\
  forall case_sensitive found wider s1 t1 s2 t2,
    find_element_by_text text case_sensitive false s = (Ok found, s1, t1) ->
    find_element_by_text text case_sensitive true s = (Ok wider, s2, t2) ->
    incl found wider.
Proof.
  repeat split.
  - rewrite !find_element_by_text_run.
    destruct (analyze_current_screen false s) as [[[analysis|e] s'] t];
      [|reflexivity].
    do 4 f_equal. unfold element_matches. cbv iota. now rewrite lower_upper.
  - rewrite !find_element_by_text_run.
    destruct (analyze_current_screen false s) as [[[analysis|e] s'] t];
      [|reflexivity].
    do 4 f_equal. unfold element_matches. cbv iota.
    now rewrite lower_idempotent.
  - intros cs found wider s1 t1 s2 t2. rewrite !find_element_by_text_run.
    destruct (analyze_current_screen false s) as [[[analysis|e] s'] t];
      [|discriminate].
    intros [= <- <- <-] [= <- <- <-] m Hm.
    apply in_map_iff in Hm. destruct Hm as (elem & <- & Hin).
    apply filter_In in Hin. destruct Hin as [Hin Hmatch].
    apply in_map, filter_In. split; [exact Hin|].
    unfold element_matches in *. cbv iota in *. now rewrite Hmatch.
Qed.

(** X14. Every element [find_element_by_text] returns is a text element of
    the observation, and its centre lies within the box of the element when
    the width and the height of the box are not negative. *)
Theorem found_element_center_in_box text case_sensitive partial_match
    s found s' t m :
  find_element_by_text text case_sensitive partial_match s = (Ok found, s', t) ->
  In m found ->
  exists analysis,
    analyze_current_screen false s = (Ok analysis, s', t) /\
    In (m_element m) (text_elements analysis) /\
    (0 <= te_width (m_element m) ->
     te_x (m_element m) <= center_x m
     <= te_x (m_element m) + te_width (m_element m)) /\
    (0 <= te_height (m_element m) ->
     te_y (m_element m) <= center_y m
     <= te_y (m_element m) + te_height (m_element m)).
Proof.
  rewrite find_element_by_text_run.
  destruct (analyze_current_screen false s) as [[[analysis|e] s1] t1];
    [|discriminate].
  intros [= <- <- <-] Hm. exists analysis. split; [reflexivity|].
  apply in_map_iff in Hm. destruct Hm as (elem & <- & Hin).
  apply filter_In in Hin. destruct Hin as [Hin _].
  cbn [with_center m_element center_x center_y].
  split; [exact Hin|]. split; intros H.
  - pose proof (Z.div_mod (te_width elem) 2 ltac:(lia)).
    pose proof (Z.mod_pos_bound (te_width elem) 2 ltac:(lia)). lia.
  - pose proof (Z.div_mod (te_height elem) 2 ltac:(lia)).
    pose proof (Z.mod_pos_bound (te_height elem) 2 ltac:(lia)). lia.
Qed.

(** X15. A step after the first that is left to the language model never
    decides on a cached observation: it begins by emptying the cache and
    capturing the screen anew. *)
Theorem later_step_sees_a_fresh_screen idx step s r s' t :
  (1 < idx)%nat ->
  decision_step idx step s = (r, s', t) ->
  exists rest, t = EvClear BeforeStep :: EvCapture :: rest.
Proof.
  intros Hidx H. unfold decision_step in H.
  apply Nat.ltb_lt in Hidx. rewrite Hidx in H.
  apply bind_inv in H.
  destruct H as [(e & H & _)|(u & s1 & t1 & t2 & H1 & H & ->)];
    [discriminate|].
  revert H1. unfold clear_cache. intros [= <- <- <-].
  pose proof (@analyze_fresh (with_cache None s) false (or_intror eq_refl)) as E.
  apply bind_inv in H.
  destruct H as [(e & H & _)|(analysis & s2 & t3 & t4 & H2 & H & ->)].
  - rewrite H in E. cbn [trace_of snd] in E. subst t2. now exists [].
  - rewrite H2 in E. cbn [trace_of snd] in E. subst t3. now exists t4.
Qed.

(** ** Invariants of the loop *)

Implicit Types (P : AgentCore (F := F) (Image := Image) (World := World) -> Prop).
Implicit Types (upd : AgentCore (F := F) (Image := Image) (World := World)
                     -> AgentCore (F := F) (Image := Image) (World := World)).

Lemma pres_ret P {A : Type} (x : A) : preserves P (ret x).
Proof. intros s r s' t [= <- <- <-] H. exact H. Qed.

Lemma pres_get P : preserves P get.
Proof. intros s r s' t [= <- <- <-] H. exact H. Qed.

Lemma pres_emit P e : preserves P (emit e).
Proof. intros s r s' t [= <- <- <-] H. exact H. Qed.

Lemma pres_lift P {A : Type} (o : Outcome A) :
  preserves P (lift o).
Proof. intros s r s' t [= <- <- <-] H. exact H. Qed.

Lemma pres_throw P {A : Type} (e : string) :
  preserves P (throw (A := A) e).
Proof. intros s r s' t [= <- <- <-] H. exact H. Qed.

Lemma pres_modify P upd :
  (forall s, P s -> P (upd s)) -> preserves P (modify upd).
Proof. intros Hf s r s' t [= <- <- <-] H. now apply Hf. Qed.

Lemma pres_bind P {A B : Type} (m : M A) (k : A -> M B) :
  preserves P m -> (forall x, preserves P (k x)) -> preserves P (bind m k).
Proof.
  intros Hm Hk s r s' t H HP. apply bind_inv in H.
  destruct H as [(e & H & _)|(x & s1 & t1 & t2 & H1 & H2 & _)].
  - exact (Hm _ _ _ _ H HP).
  - exact (Hk x _ _ _ _ H2 (Hm _ _ _ _ H1 HP)).
Qed.

Lemma pres_try P {A : Type} (m : M A) (h : string -> M A) :
  preserves P m -> (forall e, preserves P (h e)) -> preserves P (try_except m h).
Proof.
  intros Hm Hh s r s' t H HP. apply try_except_inv in H.
  destruct H as [(x & H & _)|(e & s1 & t1 & t2 & H1 & H2 & _)].
  - exact (Hm _ _ _ _ H HP).
  - exact (Hh e _ _ _ _ H2 (Hm _ _ _ _ H1 HP)).
Qed.

Section Invariant.

Variable P : AgentCore (F := F) (Image := Image) (World := World) -> Prop.

Hypothesis P_world : forall w s, P s -> P (with_world w s).
Hypothesis P_cache : forall c s, P s -> P (with_cache c s).
Hypothesis P_paused : forall b s, P s -> P (with_paused b s).
Hypothesis P_running : forall b s, P s -> P (with_running b s).
Hypothesis P_screen : forall analysis, preserves P (add_screen analysis).
Hypothesis P_action : forall a ok msg, preserves P (add_action a ok msg).
Hypothesis P_log : forall a ok msg, preserves P (log_action a ok msg).

Variable total : nat.

Hypothesis P_index : forall idx,
  (1 <= idx <= total)%nat ->
  preserves P (set_step_index (Z.max 0 (Z.of_nat idx - 2))).

Lemma pres_call {A : Type} c (f : World -> Outcome A * World) :
  preserves P (call c f).
Proof.
  intros s r s' t H HP. apply call_inv in H.
  destruct H as (w & _ & -> & _). now apply P_world.
Qed.

Lemma pres_clear_cache site : preserves P (clear_cache site).
Proof. intros s r s' t [= <- <- <-] H. now apply P_cache. Qed.

Lemma pres_capture : preserves P capture.
Proof.
  intros s r s' t. unfold capture.
  destruct (capture_full_screen (world s)) as [o w].
  intros [= <- <- <-] H. now apply P_world.
Qed.

Lemma pres_sleep_briefly : preserves P sleep_briefly.
Proof. apply pres_modify. intros s H. now apply P_world. Qed.

Lemma pres_execute_action a : preserves P (execute_action a).
Proof.
  intros s r s' t H HP. apply execute_action_frame in H.
  destruct H as [[_ ->]|(c & b & w & _ & ->)]; [exact HP | now apply P_world].
Qed.

Lemma pres_poll_owner : preserves P poll_owner.
Proof.
  intros s r s' t. unfold poll_owner.
  destruct (owner_calls (world s)) as [calls w].
  intros [= <- <- <-] HP. apply (P_world w) in HP.
  revert HP. generalize (with_world w s).
  induction calls as [|c calls IH]; intros s0 HP; [exact HP|].
  cbn [fold_left]. apply IH.
  destruct c; [now apply P_paused | now apply P_paused | now apply P_running].
Qed.

(** Takes a goal [preserves P m] apart along the structure of [m]. *)
Ltac pres :=
  repeat match goal with
         | |- preserves _ (bind _ _) => apply pres_bind; [|intros ?]
         | |- preserves _ (try_except _ _) => apply pres_try; [|intros ?]
         | |- preserves _ (ret _) => apply pres_ret
         | |- preserves _ get => apply pres_get
         | |- preserves _ (emit _) => apply pres_emit
         | |- preserves _ (log _) => apply pres_emit
         | |- preserves _ (lift _) => apply pres_lift
         | |- preserves _ (throw _) => apply pres_throw
         | |- preserves _ (call _ _) => apply pres_call
         | |- preserves _ (clear_cache _) => apply pres_clear_cache
         | |- preserves _ capture => apply pres_capture
         | |- preserves _ sleep_briefly => apply pres_sleep_briefly
         | |- preserves _ (execute_action _) => apply pres_execute_action
         | |- preserves _ poll_owner => apply pres_poll_owner
         | |- preserves _ (add_screen _) => apply P_screen
         | |- preserves _ (add_action _ _ _) => apply P_action
         | |- preserves _ (log_action _ _ _) => apply P_log
         | |- preserves _ (modify (with_cache _)) =>
             apply pres_modify; intros ? ?; now apply P_cache
         | |- preserves _ (if ?b then _ else _) => destruct b
         | |- preserves _ (match ?x with _ => _ end) => destruct x
         end.

Lemma pres_analyze force_new : preserves P (analyze_current_screen force_new).
Proof. unfold analyze_current_screen. pres. Qed.

Lemma pres_exec_detail detail : preserves P (exec_detail detail).
Proof.
  unfold exec_detail, exec_wait_detail, exec_click_detail. pres.
Qed.

Lemma pres_exec_details ds : forall flag, preserves P (exec_details ds flag).
Proof.
  induction ds as [|d ds IH]; intros flag; cbn [exec_details]; pres.
  - apply pres_exec_detail.
  - apply IH.
Qed.

Lemma pres_deterministic_step idx step :
  preserves P (deterministic_step total idx step).
Proof.
  unfold deterministic_step. apply pres_bind; [apply pres_exec_details|].
  intros ok. pres.
Qed.

Lemma pres_decision_step idx step :
  (1 <= idx <= total)%nat -> preserves P (decision_step idx step).
Proof.
  intros Hidx.
  unfold decision_step, act_on_decision, decide_next_action, handle_error,
    get_action_decision_prompt, get_error_handling_prompt, call_by_keyword.
  pres; try apply pres_analyze. now apply P_index.
Qed.

Lemma pres_step_body idx step :
  (1 <= idx <= total)%nat -> preserves P (step_body total idx step).
Proof.
  intros Hidx. unfold step_body.
  pres; [now apply pres_decision_step | apply pres_deterministic_step].
Qed.

Lemma pres_run_steps steps : forall idx,
  (1 <= idx)%nat -> (idx + List.length steps <= total + 1)%nat ->
  preserves P (run_steps total idx steps).
Proof.
  induction steps as [|step rest IH]; intros idx H1 H2; cbn [run_steps].
  - pres.
  - cbn [List.length] in H2.
    apply pres_bind; [apply pres_step_body; lia|].
    intros [|b]; [apply IH; lia | apply pres_ret].
Qed.

Lemma pres_execute_plan s r s' t :
  List.length (current_plan (context s)) = total ->
  _execute_plan s = (r, s', t) -> P s -> P s'.
Proof.
  intros Hlen H HP. unfold _execute_plan in H. apply bind_inv in H.
  destruct H as [(e & [=] & _)|(s0 & s1 & t1 & t2 & [= <- <- <-] & H & _)].
  destruct (current_plan (context s)) as [|step rest] eqn:E.
  - revert H. run. now intros [= <- <- <-].
  - rewrite Hlen in H.
    assert (Hp : preserves P (run_steps total 1 (step :: rest))).
    { apply pres_run_steps; [lia|]. rewrite <- Hlen. cbn [List.length]. lia. }
    exact (Hp _ _ _ _ H HP).
Qed.

End Invariant.

Lemma deque_append_bound {A : Type} (n : nat) (d : list A) (x : A) :
  (List.length d <= n)%nat -> (List.length (deque_append n d x) <= n)%nat.
Proof.
  intros H. unfold deque_append.
  destruct (Nat.ltb_spec n (List.length (d ++ [x]))) as [Hlt|Hge];
    [|exact Hge].
  rewrite length_app in Hlt. cbn [List.length] in Hlt.
  destruct d as [|y d]; cbn [app tl List.length] in *; [lia|].
  rewrite length_app. cbn [List.length]. lia.
Qed.

(** X16. The two histories of the context are bounded deques: appending to
    a history of at most 20 entries leaves at most 20, the new entry last
    and, when the history was full, its oldest entry dropped. *)
Theorem history_append_drops_oldest {A : Type} (d : list A) (x : A) :
  (List.length d <= max_history)%nat ->
  (List.length (deque_append max_history d x) <= max_history)%nat /\
  ((List.length d < max_history)%nat ->
   deque_append max_history d x = (d ++ [x])%list) /\
  ((List.length d = max_history)%nat ->
   deque_append max_history d x = (tl d ++ [x])%list).
Proof.
  intros H. split; [now apply deque_append_bound|].
  unfold deque_append. rewrite length_app. cbn [List.length]. split; intros H'.
  - destruct (Nat.ltb_spec max_history (List.length d + 1)); [lia | reflexivity].
  - destruct (Nat.ltb_spec max_history (List.length d + 1)); [|lia].
    destruct d as [|y d]; [cbn in H'; discriminate | reflexivity].
Qed.

Lemma histories_bounded_screen (analysis : Analysis (Image := Image)) :
  preserves (F := F) (Image := Image) (World := World)
    histories_bounded (add_screen analysis).
Proof.
  intros s r s' t. unfold add_screen, modify. intros [= <- <- <-] [H1 H2].
  split; cbn; [now apply deque_append_bound | exact H2].
Qed.

Lemma histories_bounded_action a ok msg :
  preserves (F := F) (Image := Image) (World := World)
    histories_bounded (add_action a ok msg).
Proof.
  intros s r s' t. unfold add_action, modify. intros [= <- <- <-] [H1 H2].
  split; cbn; [exact H1 | now apply deque_append_bound].
Qed.

(** X17. Executing a plan never lets a history of the context grow beyond
    its 20 entries, however many steps, screens and actions the plan has. *)
Theorem execute_plan_keeps_histories_bounded s r s' t :
  _execute_plan s = (r, s', t) ->
  histories_bounded s -> histories_bounded s'.
Proof.
  intros H HP.
  refine (@pres_execute_plan histories_bounded _ _ _ _ _ _ _
            (List.length (current_plan (context s))) _
            s r s' t eq_refl H HP);
    try (intros; assumption).
  - apply histories_bounded_screen.
  - apply histories_bounded_action.
  - intros a ok msg s0 r0 s1 t0. unfold log_action, modify.
    now intros [= <- <- <-].
  - intros idx _ s0 r0 s1 t0. unfold set_step_index, modify.
    now intros [= <- <- <-].
Qed.

(** X18. Executing a plan never changes the plan, and the cursor of the
    context, when it points into the plan before, points into it after: a
    retry sets it to [max(0, idx - 2)], which is a position of the plan, so
    [get_current_step] still finds a step. *)
Theorem execute_plan_keeps_cursor_in_plan plan s r s' t :
  _execute_plan s = (r, s', t) ->
  cursor_in_plan plan s ->
  cursor_in_plan plan s' /\
  exists step, get_current_step (context s') = Some step.
Proof.
  intros H HP.
  assert (HP' : cursor_in_plan plan s').
  { refine (@pres_execute_plan (cursor_in_plan plan) _ _ _ _ _ _ _
              (List.length plan) _ s r s' t _ H HP);
      try (intros; assumption).
    - intros analysis s0 r0 s1 t0. unfold add_screen, modify.
      now intros [= <- <- <-].
    - intros a ok msg s0 r0 s1 t0. unfold add_action, modify.
      now intros [= <- <- <-].
    - intros a ok msg s0 r0 s1 t0. unfold log_action, modify.
      now intros [= <- <- <-].
    - intros idx Hidx s0 r0 s1 t0. unfold set_step_index, modify.
      intros [= <- <- <-] [Hplan Hcur]. split; [exact Hplan|].
      cbn [context current_step_index with_context]. lia.
    - destruct HP as [-> _]. reflexivity. }
  split; [exact HP'|].
  destruct HP' as [Hplan Hcur]. unfold get_current_step, py_item.
  rewrite Hplan.
  destruct (Z.leb_spec 0 (current_step_index (context s'))); [|lia].
  destruct (Z.ltb_spec (current_step_index (context s'))
              (Z.of_nat (List.length plan))); [|lia].
  cbn [andb].
  destruct (nth_error plan (Z.to_nat (current_step_index (context s'))))
    as [step|] eqn:E; [now exists step|].
  apply nth_error_None in E. lia.
Qed.

(** X19. The session log is append-only while a plan is executed: it ends as
    the log it started with, followed by the entries of the run. *)
Theorem execute_plan_appends_to_session_log s r s' t :
  _execute_plan s = (r, s', t) ->
  exists more, session_log s' = (session_log s ++ more)%list.
Proof.
  intros H.
  refine (@pres_execute_plan (log_extends (session_log s)) _ _ _ _ _ _ _
            (List.length (current_plan (context s))) _
            s r s' t eq_refl H _);
    try (intros; assumption).
  - intros analysis s0 r0 s1 t0. unfold add_screen, modify.
    now intros [= <- <- <-].
  - intros a ok msg s0 r0 s1 t0. unfold add_action, modify.
    now intros [= <- <- <-].
  - intros a ok msg s0 r0 s1 t0. unfold log_action, modify.
    intros [= <- <- <-] [more E]. cbn [session_log with_session_log].
    rewrite E. exists (more ++ [SessionAction a ok msg])%list.
    now rewrite app_assoc.
  - intros idx _ s0 r0 s1 t0. unfold set_step_index, modify.
    now intros [= <- <- <-].
  - exists []. now rewrite app_nil_r.
Qed.

(** ** Exceptions stay inside *)

Lemma never_raises_ret {A : Type} (x : A) :
  never_raises (F := F) (Image := Image) (World := World) (ret x).
Proof. intros s. now eexists _, _, _. Qed.

Lemma never_raises_modify upd : never_raises (modify upd).
Proof. intros s. now eexists _, _, _. Qed.

Lemma never_raises_bind {A B : Type}
    (m : M (F := F) (Image := Image) (World := World) A) (k : A -> M B) :
  never_raises m -> (forall x, never_raises (k x)) -> never_raises (bind m k).
Proof.
  intros Hm Hk s. destruct (Hm s) as (x & s1 & t1 & E1).
  destruct (Hk x s1) as (y & s2 & t2 & E2).
  exists y, s2, (t1 ++ t2)%list. unfold bind. now rewrite E1, E2.
Qed.

Lemma never_raises_try {A : Type}
    (m : M (F := F) (Image := Image) (World := World) A) (h : string -> M A) :
  (forall e, never_raises (h e)) -> never_raises (try_except m h).
Proof.
  intros Hh s. unfold try_except.
  destruct (m s) as [[[x|e] s1] t1]; [now eexists _, _, _|].
  destruct (Hh e s1) as (y & s2 & t2 & E). rewrite E. now eexists _, _, _.
Qed.

Lemma never_raises_poll_owner : never_raises poll_owner.
Proof. intros s. rewrite poll_owner_run. now eexists _, _, _. Qed.

Lemma never_raises_process_current_task : never_raises _process_current_task.
Proof.
  unfold _process_current_task. apply never_raises_try. intros e.
  apply never_raises_bind; [|intros; apply never_raises_ret].
  intros s. now eexists _, _, _.
Qed.

Lemma never_raises_set_task_status st :
  never_raises (F := F) (Image := Image) (World := World) (set_task_status st).
Proof. apply never_raises_modify. Qed.

Lemma never_raises_agent_turn : never_raises agent_turn.
Proof.
  unfold agent_turn.
  apply never_raises_bind; [apply never_raises_poll_owner | intros _].
  intros s. unfold bind at 1, get. cbv beta iota.
  assert (Hs : never_raises (F := F) (Image := Image) (World := World)
                 (bind sleep_briefly (fun _ => ret true))).
  { apply never_raises_bind; [apply never_raises_modify|].
    intros; apply never_raises_ret. }
  assert (G : exists x s' t,
             (if negb (is_running s) then ret false
              else if is_paused s then bind sleep_briefly (fun _ => ret true)
              else match task_queue s with
                   | [] => bind sleep_briefly (fun _ => ret true)
                   | task :: queue =>
                       bind (modify (with_task queue (Some task)))
                         (fun _ =>
                          bind _process_current_task
                            (fun success =>
                             bind (modify (fun s' =>
                                             with_task (task_queue s') None s'))
                               (fun _ =>
                                bind (log_task_completion success)
                                  (fun _ =>
                                   bind (if success then set_task_completed
                                         else set_task_failed)
                                     (fun _ =>
                                      bind sleep_briefly
                                        (fun _ => ret true))))))
                   end) s = (Ok x, s', t)).
  { destruct (negb (is_running s)); [apply never_raises_ret|].
    destruct (is_paused s); [apply Hs|].
    destruct (task_queue s) as [|task queue]; [apply Hs|].
    apply never_raises_bind; [apply never_raises_modify | intros _].
    apply never_raises_bind;
      [apply never_raises_process_current_task | intros success].
    apply never_raises_bind; [apply never_raises_modify | intros _].
    apply never_raises_bind; [apply never_raises_modify | intros _].
    apply never_raises_bind;
      [destruct success; apply never_raises_set_task_status | intros _].
    exact Hs. }
  destruct G as (x & s' & t & ->). now eexists _, _, _.
Qed.

Lemma never_raises_agent_turns turns : never_raises (agent_turns turns).
Proof.
  induction turns as [|n IH]; cbn [agent_turns]; [apply never_raises_ret|].
  apply never_raises_bind; [apply never_raises_agent_turn|].
  intros [|]; [exact IH | apply never_raises_ret].
Qed.

(** X20. No exception leaves the processing of a task: whatever the screen,
    the planner, the model and the controllers do, [_process_current_task]
    and a turn of the agent loop return, so the [except] branch of
    [_agent_loop], which would stop the agent, is never taken and
    [_agent_loop] behaves as its bare [while] loop. The bookkeeping of the
    loop itself ([log_task_completion], [set_task_completed],
    [set_task_failed], the short sleeps) is as for a task submitted through
    [execute_task], whose [start_task] has set the start time: it returns. *)
Theorem no_exception_stops_the_agent :
  never_raises _process_current_task /\
  never_raises agent_turn /\
  forall turns s, _agent_loop turns s = agent_turns turns s.
Proof.
  split; [apply never_raises_process_current_task|].
  split; [apply never_raises_agent_turn|].
  intros turns s. unfold _agent_loop, try_except.
  destruct (never_raises_agent_turns turns s) as (x & s' & t & ->).
  reflexivity.
Qed.

(** X21. [_process_task], run on its own for a task that
    [execute_parallel_tasks] has started, never raises either; it always
    ends with no task in hand, and it marks the task completed exactly when
    it returns [True] and failed when it returns [False]. *)
Theorem process_task_always_cleans_up task s :
  exists success s' t,
    _process_task task s = (Ok success, s', t) /\
    current_task s' = None /\
    task_status (context s')
    = (if success then StatusCompleted else StatusFailed).
Proof.
  unfold _process_task.
  destruct (never_raises_process_current_task
              (with_task (task_queue s) (Some task) s))
    as (success & s1 & t1 & E).
  exists success. unfold try_except, bind, modify. cbv beta iota.
  rewrite E.
  destruct success; run; eexists _, _; (split; [reflexivity|]); now split.
Qed.

(** X22. While the agent is paused a turn of the agent loop takes no task
    from the queue and makes no call into the host: the queue, the context,
    the cache and the log are as before and the loop goes on; once the agent
    is stopped, the turn ends the loop without touching the queue. *)
Theorem paused_agent_keeps_its_queue s :
  (is_running (after_owner s) = true -> is_paused (after_owner s) = true ->
   exists s',
     agent_turn s = (Ok true, s', owner_events s) /\
     only_flags_differ s s') /\
  (is_running (after_owner s) = false ->
   agent_turn s = (Ok false, after_owner s, owner_events s) /\
   only_flags_differ s (after_owner s)).
Proof.
  pose proof (after_owner_frame s) as Hf.
  split.
  - intros Hr Hp. unfold agent_turn. unfold bind at 1.
    rewrite poll_owner_run. unfold bind at 1, get. cbv beta iota.
    rewrite Hr, Hp. run. rewrite app_nil_r.
    eexists. split; [reflexivity|]. exact Hf.
  - intros Hr. unfold agent_turn. unfold bind at 1.
    rewrite poll_owner_run. unfold bind at 1, get. cbv beta iota.
    rewrite Hr. run. rewrite app_nil_r. now split.
Qed.

(** ** The cursor of the context *)

(** X23. [next_step] moves the cursor forward by one and returns the step
    it then points to, which is what [get_current_step] gives afterwards;
    at the last step, and for an empty plan, it returns [None] and leaves
    the cursor alone. In both cases the cursor stays between [-1] and the
    last position of the plan. *)
Theorem next_step_stays_in_plan s :
  -1 <= current_step_index (context s)
     < Z.max 0 (Z.of_nat (List.length (current_plan (context s)))) ->
  exists answer s',
    next_step s = (Ok answer, s', []) /\
    current_plan (context s') = current_plan (context s) /\
    -1 <= current_step_index (context s')
       < Z.max 0 (Z.of_nat (List.length (current_plan (context s)))) /\
    (current_step_index (context s)
     < Z.of_nat (List.length (current_plan (context s))) - 1 ->
     current_step_index (context s') = current_step_index (context s) + 1 /\
     answer = get_current_step (context s') /\ answer <> None) /\
    (Z.of_nat (List.length (current_plan (context s))) - 1
     <= current_step_index (context s) ->
     answer = None /\ s' = s).
Proof.
  intros H. unfold next_step, bind at 1, get. cbv beta iota zeta.
  set (i := current_step_index (context s)) in *.
  set (plan := current_plan (context s)) in *.
  destruct (Z.ltb_spec i (Z.of_nat (List.length plan) - 1)) as [Hlt|Hge].
  - destruct (nth_error plan (Z.to_nat (i + 1))) as [step|] eqn:E.
    2:{ apply nth_error_None in E. lia. }
    assert (Ei : py_item plan (i + 1) = Some step).
    { unfold py_item. destruct (Z.leb_spec 0 (i + 1)); [exact E | lia]. }
    rewrite Ei. run.
    eexists _, _. split; [reflexivity|]. cbn.
    repeat split; try lia; try discriminate.
    unfold get_current_step. cbn [current_plan current_step_index].
    fold plan.
    destruct (Z.leb_spec 0 (i + 1)); [|lia].
    destruct (Z.ltb_spec (i + 1) (Z.of_nat (List.length plan))); [|lia].
    now rewrite Ei.
  - run. eexists _, _. split; [reflexivity|]. repeat split; try lia.
Qed.

(** X24. [get_recent_actions(count)] returns the last [count] entries of the
    history, fewer when the history is shorter; for [count = 0] it returns
    the whole history, not an empty list. *)
Theorem recent_actions_edge_cases count
    (c : ContextManager (F := F) (Image := Image)) :
  (exists older, action_history c = (older ++ get_recent_actions count c)%list) /\
  (0 < count ->
   Z.of_nat (List.length (get_recent_actions count c))
   = Z.min count (Z.of_nat (List.length (action_history c)))) /\
  (count = 0 -> get_recent_actions count c = action_history c).
Proof.
  unfold get_recent_actions, py_slice_from.
  set (h := action_history c). repeat split.
  - exists (firstn (Z.to_nat (if - count <? 0
                               then Z.max 0 (Z.of_nat (List.length h) + - count)
                               else - count)) h).
    now rewrite firstn_skipn.
  - intros H. destruct (Z.ltb_spec (- count) 0); [|lia].
    rewrite length_skipn. lia.
  - intros ->. reflexivity.
Qed.

(** ** The planner *)

Context {planner : PlannerHost (World := World)}.

Lemma rstrip_idempotent (text : string) : rstrip (rstrip text) = rstrip text.
Proof.
  induction text as [|c r IH]; [reflexivity|].
  cbn [rstrip].
  destruct (is_space c && is_empty (rstrip r)) eqn:E; [reflexivity|].
  cbn [rstrip]. now rewrite IH, E.
Qed.

Lemma lstrip_head (text : string) :
  lstrip text = EmptyString \/
  exists c r, lstrip text = String c r /\ is_space c = false.
Proof.
  induction text as [|c r IH]; [now left|].
  cbn [lstrip]. destruct (is_space c) eqn:E; [exact IH|].
  right. now exists c, r.
Qed.

Lemma strip_idempotent (text : string) : strip (strip text) = strip text.
Proof.
  unfold strip.
  destruct (lstrip_head text) as [->|(c & r & -> & Hc)]; [reflexivity|].
  cbn [rstrip]. rewrite Hc. cbn [andb lstrip]. rewrite Hc.
  cbn [rstrip]. now rewrite rstrip_idempotent, Hc.
Qed.

Lemma first_digit_range (line : string) :
  is_step_line line = true -> 0 <= first_digit line <= 9.
Proof.
  destruct line as [|c r]; [discriminate|].
  unfold is_step_line, is_digit, first_digit. intros H.
  apply andb_prop in H. destruct H as [H _].
  apply andb_prop in H. destruct H as [H1 H2].
  apply Nat.leb_le in H1, H2. lia.
Qed.

Lemma close_step_well_formed steps current :
  Forall well_formed_step steps ->
  (forall step, current = Some step -> well_formed_step step) ->
  Forall well_formed_step (close_step steps current).
Proof.
  intros Hs Hc. destruct current as [step|]; [|exact Hs].
  cbn [close_step]. apply Forall_app. split; [exact Hs|].
  constructor; [now apply Hc | constructor].
Qed.

Lemma parse_step_lines_well_formed lines : forall steps current,
  Forall well_formed_step steps ->
  (forall step, current = Some step -> well_formed_step step) ->
  Forall well_formed_step (parse_step_lines lines steps current).
Proof.
  induction lines as [|raw rest IH]; intros steps current Hs Hc;
    cbn [parse_step_lines]; [now apply close_step_well_formed|].
  cbv zeta.
  destruct (is_empty (strip raw)) eqn:Ee; [now apply IH|].
  destruct (is_step_line (strip raw)) eqn:El.
  - apply IH; [now apply close_step_well_formed|].
    intros step [= <-]. repeat split; cbn [number description details].
    + now apply first_digit_range.
    + now apply first_digit_range.
    + apply strip_idempotent.
    + constructor.
  - destruct current as [step|]; [|now apply IH].
    apply IH; [exact Hs|].
    intros step' [= <-]. destruct (Hc step eq_refl) as (Hn & Hd & Hdet).
    repeat split; cbn [number description details]; try tauto.
    apply Forall_app. split; [exact Hdet|].
    constructor; [|constructor].
    repeat split; [exact Ee | apply strip_idempotent | exact El].
Qed.

(** X25. Every step [_parse_steps] returns has a number between 0 and 9 (the
    first character of its line: line [12.] gives number 1), a stripped
    description, and details that are stripped, non-blank lines none of
    which starts a step. *)
Theorem parsed_steps_are_well_formed (plan_text : string) :
  Forall well_formed_step (_parse_steps plan_text).
Proof.
  unfold _parse_steps. apply parse_step_lines_well_formed;
    [constructor | discriminate].
Qed.

Lemma parse_step_lines_length lines : forall steps current,
  List.length (parse_step_lines lines steps current)
  = (List.length (close_step steps current)
     + List.length (filter is_step_line
                      (filter (fun l => negb (is_empty l)) (map strip lines))))%nat.
Proof.
  induction lines as [|raw rest IH]; intros steps current;
    cbn [parse_step_lines map filter List.length]; [lia|].
  cbv zeta.
  destruct (is_empty (strip raw)) eqn:Ee; cbn [negb]; [apply IH|].
  cbn [filter].
  destruct (is_step_line (strip raw)) eqn:El.
  - rewrite IH. cbn [close_step List.length]. rewrite length_app.
    cbn [List.length]. lia.
  - destruct current as [step|]; rewrite IH; cbn [close_step];
      rewrite ?length_app; reflexivity.
Qed.

(** X26. [_parse_steps] returns one step for each line that starts with a
    digit and has a dot among its first three characters, so a text without
    such a line, the empty text included, gives no step at all. *)
Theorem parsed_steps_count (plan_text : string) :
  List.length (_parse_steps plan_text) = List.length (step_lines plan_text) /\
  (step_lines plan_text = [] -> _parse_steps plan_text = []).
Proof.
  assert (E : List.length (_parse_steps plan_text)
              = List.length (step_lines plan_text)).
  { unfold _parse_steps, step_lines, nonblank_lines.
    now rewrite parse_step_lines_length. }
  split; [exact E|]. intros H. rewrite H in E.
  now destruct (_parse_steps plan_text).
Qed.

Lemma parse_step_lines_no_details lines : forall steps current,
  Forall (fun raw => is_empty (strip raw) = true
                     \/ is_step_line (strip raw) = true) lines ->
  Forall (fun step => details step = []) steps ->
  (forall step, current = Some step -> details step = []) ->
  Forall (fun step => details step = []) (parse_step_lines lines steps current).
Proof.
  assert (C : forall steps current,
             Forall (fun step => details step = []) steps ->
             (forall step, current = Some step -> details step = []) ->
             Forall (fun step => details step = []) (close_step steps current)).
  { intros steps [step|] Hs Hc; [|exact Hs]. cbn [close_step].
    apply Forall_app. split; [exact Hs|]. constructor; [now apply Hc|].
    constructor. }
  induction lines as [|raw rest IH]; intros steps current Hl Hs Hc;
    cbn [parse_step_lines]; [now apply C|].
  cbv zeta. inversion Hl as [|? ? Hraw Hrest]; subst.
  destruct (is_empty (strip raw)) eqn:Ee; [now apply IH|].
  destruct Hraw as [Hraw|Hraw]; [discriminate|]. rewrite Hraw.
  apply IH; [exact Hrest | now apply C | now intros step [= <-]].
Qed.

(** X27. When every non-blank line of the text is a numbered line, which is
    the format the planning prompt asks for, every parsed step has no
    details: the loop will treat each of them as a step to be decided by the
    language model, the action text sitting in the description. *)
Theorem numbered_plan_is_decision_driven (plan_text : string) :
  Forall (fun raw => is_empty (strip raw) = true
                     \/ is_step_line (strip raw) = true)
    (split_on newline (strip plan_text)) ->
  Forall (fun step => details step = []) (_parse_steps plan_text).
Proof.
  intros H. unfold _parse_steps.
  apply parse_step_lines_no_details; [exact H | constructor | discriminate].
Qed.

Lemma renumber_from_nth steps : forall i k step,
  nth_error (renumber_from i steps) k = Some step ->
  number step = i + Z.of_nat k /\
  exists old, nth_error steps k = Some old /\
              description step = description old /\
              details step = details old.
Proof.
  induction steps as [|st rest IH]; intros i k step H.
  - destruct k; discriminate.
  - destruct k as [|k]; cbn [renumber_from nth_error] in H.
    + revert H. intros [= <-]. cbn [number description details].
      split; [lia|]. now exists st.
    + apply IH in H. destruct H as (Hn & old & Ho & Hd).
      split; [lia|]. now exists old.
Qed.

Lemma renumber_from_length steps : forall i,
  List.length (renumber_from i steps) = List.length steps.
Proof.
  induction steps as [|st rest IH]; intros i; [reflexivity|].
  cbn [renumber_from List.length]. now rewrite IH.
Qed.

(** X28. The steps of every plan [plan_task] returns are numbered 1, 2, ...
    in their order, whatever numbers the model or the fallback gave them;
    and [plan_task] returns an empty plan only when the fallback plan is
    empty. *)
Theorem planned_steps_are_renumbered task screen w plan w' :
  plan_task task screen w = (Ok plan, w') ->
  (forall k step, nth_error plan k = Some step -> number step = Z.of_nat k + 1) /\
  (plan = [] -> get_fallback_plan task screen = []).
Proof.
  unfold plan_task.
  destruct (_decompose_task task w) as [[subs|e] w1]; [|discriminate].
  destruct (plan_sub_tasks subs task screen [] w1) as [[all_plans|e] w2];
    [|discriminate].
  intros [= <- <-]. split.
  - intros k step H. apply renumber_from_nth in H. lia.
  - intros H. apply (f_equal (@List.length Step)) in H.
    rewrite renumber_from_length in H.
    destruct all_plans as [|st rest]; [|discriminate].
    now destruct (get_fallback_plan task screen).
Qed.

(** X29. [_decompose_task] never returns an empty list of sub-tasks: when
    the model answers nothing but blank lines, or only the task itself in
    any letter case, the task is its own single sub-task; otherwise the
    sub-tasks are the stripped non-blank lines of the answer. *)
Theorem decomposition_is_never_empty task w subs w' :
  _decompose_task task w = (Ok subs, w') ->
  subs <> [] /\
  (subs = [task] \/
   Forall (fun sub => is_empty sub = false /\ strip sub = sub) subs).
Proof.
  unfold _decompose_task.
  destruct (decomposition_generate task w) as [[response|e] w1];
    [|discriminate].
  intros [= <- <-]. unfold sub_tasks_of.
  assert (G : Forall (fun sub => is_empty sub = false /\ strip sub = sub)
                (nonblank_lines response)).
  { unfold nonblank_lines. apply Forall_forall. intros sub Hin.
    apply filter_In in Hin. destruct Hin as [Hin Hne].
    apply in_map_iff in Hin. destruct Hin as (raw & <- & _).
    split; [now destruct (is_empty (strip raw)) | apply strip_idempotent]. }
  destruct (nonblank_lines response) as [|only [|second rest]].
  - split; [discriminate | now left].
  - destruct (String.eqb (lower only) (lower task));
      (split; [discriminate|]); [now left | now right].
  - split; [discriminate | now right].
Qed.

End Properties.

(** * The properties on the scripted host *)

Import Demo.

#[local] Existing Instance demo_float.
#[local] Existing Instance demo_host.

Lemma run_eta {A S T : Type} (r : A * S * T) :
  r = (result_of r, state_of r, trace_of r).
Proof. now destruct r as [[x y] z]. Qed.

(** C1. The handling of a failed decision-driven step is never reached.
    With two steps left to the language model, whose answers would make
    step 2 fail and the failure be answered with a retry,
    [_execute_plan] leaves by the [TypeError] of [decide_next_action] at
    step 1: step 2 is not started, no action is dispatched, the model is
    asked neither for an action nor about an error, and the cursor of the
    context stays where [set_plan] put it. *)
Theorem retry_branch_is_never_reached :
  result_of retry_run = Raise decision_error /\
  trace_of retry_run = [EvLog (LStartingStep 1 2); EvCapture] /\
  steps_started (trace_of retry_run) = [1%nat] /\
  count is_dispatch (trace_of retry_run) = 0%nat /\
  count is_model_call (trace_of retry_run) = 0%nat /\
  lm_replies (world (state_of retry_run)) = lm_replies retry_world /\
  current_step_index (context (state_of retry_run)) = 0.
Proof. repeat split; vm_compute; reflexivity. Qed.

(** The branch that is not reached, run from a decided action: a failed
    dispatch at step 2 answered with a retry sets the cursor of the context
    to [max(0, 2 - 2) = 0] and ends the iteration with [continue], after
    which the [for] loop takes the step that follows. *)
Lemma retry_branch_goes_forward :
  result_of retry_branch_run = Ok Continue /\
  count is_failed_dispatch (trace_of retry_branch_run) = 1%nat /\
  count is_model_call (trace_of retry_branch_run) = 1%nat /\
  current_step_index (context (state_of retry_branch_run)) = 0.
Proof. repeat split; vm_compute; reflexivity. Qed.

(** C7. A plan of steps left to the language model is never completed. With
    two such steps, a model that would answer each question with an action
    that succeeds and controllers that work, [_execute_plan] leaves by the
    [TypeError] of [decide_next_action] at step 1: no action is dispatched,
    no cache is invalidated after an action, the model is not asked, and
    the plan is not reported as executed; the agent loop records the task
    as failed. *)
Theorem decision_plan_is_never_completed :
  result_of smooth_run = Raise decision_error /\
  steps_started (trace_of smooth_run) = [1%nat] /\
  count is_dispatch (trace_of smooth_run) = 0%nat /\
  count (is_clear AfterAction) (trace_of smooth_run) = 0%nat /\
  count is_model_call (trace_of smooth_run) = 0%nat /\
  ~ In (EvLog LPlanExecuted) (trace_of smooth_run) /\
  In (EvLog (LErrorProcessing decision_error)) (trace_of smooth_task_run) /\
  lm_replies (world (state_of smooth_task_run)) = lm_replies smooth_task_world /\
  task_status (context (state_of smooth_task_run)) = StatusFailed.
Proof.
  repeat split; try (vm_compute; reflexivity).
  - vm_compute. intros [H|[H|[]]]; discriminate H.
  - vm_compute. repeat (try (left; reflexivity); right).
Qed.

(** C4. A [WAIT] detail whose sleep raises ends the plan. In a first step of
    two whose only detail is [WAIT -1], no detail succeeds and the step is
    not the last one, yet the loop does not log the failure and go on:
    [_execute_plan] leaves by the exception of [time.sleep], step 2 is not
    started, and the agent loop records the task as failed. With the
    details [CLICK 10 10] and [WAIT -1] the click succeeds, and the step
    ends in the same exception all the same. *)
Theorem raising_wait_detail_aborts_the_plan :
  (result_of negative_wait_run = Raise "sleep length must be non-negative" /\
   steps_started (trace_of negative_wait_run) = [1%nat] /\
   existsb is_detail_success (trace_of negative_wait_run) = false /\
   ~ In (EvLog (LStepFailedContinuing 1)) (trace_of negative_wait_run) /\
   task_status (context (state_of negative_wait_task_run)) = StatusFailed) /\
  (result_of click_then_negative_wait_run
   = Raise "sleep length must be non-negative" /\
   steps_started (trace_of click_then_negative_wait_run) = [1%nat] /\
   existsb is_detail_success (trace_of click_then_negative_wait_run) = true).
Proof.
  repeat split; try (vm_compute; reflexivity).
  vm_compute. intros [H|[H|[]]]; discriminate H.
Qed.

(** C2, as the specification has it, fails: the agent, at work on a plan of
    two waiting steps, is paused when step 2 is about to run and resumed
    later. The pause ends the plan,
    the task is recorded as failed and leaves the queue, and after the
    resume the agent loop starts no step at all: step 2 is not entered
    again. *)
Lemma pause_is_not_resumed :
  steps_started (trace_of paused_run) = [1; 2]%nat /\
  In (EvLog LInterrupted) (trace_of paused_run) /\
  is_paused (state_of paused_run) = true /\
  task_status (context (state_of paused_run)) = StatusFailed /\
  task_queue (state_of paused_run) = [] /\
  trace_of resumed_run = [EvOwner CallResume] /\
  is_paused (state_of resumed_run) = false /\
  is_running (state_of resumed_run) = true /\
  ~ In 2%nat (steps_started (trace_of resumed_run)).
Proof.
  repeat split; try reflexivity.
  - vm_compute. repeat (try (left; reflexivity); right).
  - vm_compute. intros [].
Qed.

Lemma pause_ends_the_plan_witness :
  run_steps 2 2 [wait_step 2] (demo_agent two_waits paused_world)
  = (Ok false, pause (demo_agent two_waits (mkDemoWorld [] [] true [])),
     [EvLog (LStartingStep 2 2); EvOwner CallPause; EvLog LInterrupted]).
Proof.
  exact (proj1 (@pause_ends_the_plan _ _ _ _ _ 2%nat 2%nat
                  (wait_step 2) []
                  (demo_agent two_waits paused_world) eq_refl)).
Defined.

Lemma press_key_is_lowercase_witness :
  a_type (_parse_action ("Press " ++ quoted "Ctrl+A")) = Some "press" /\
  exists key,
    a_key (_parse_action ("Press " ++ quoted "Ctrl+A")) = Some key /\
    key = lower (unquote (strip (drop 5 (strip ("Press " ++ quoted "Ctrl+A")))))
    /\ lower key = key /\ no_upper key = true.
Proof.
  split; [reflexivity|].
  apply (@press_key_is_lowercase _ demo_float). reflexivity.
Defined.

Lemma deterministic_step_succeeds_on_any_detail_witness :
  details wait_then_click <> [] /\
  count is_interrupt (trace_of detail_run) = 0%nat /\
  existsb is_detail_success (trace_of detail_run) = true /\
  result_of detail_run = Ok Continue.
Proof.
  split; [discriminate|]. split; [reflexivity|]. split; [reflexivity|].
  destruct detail_run as [[[flow|e] s'] t] eqn:E.
  - cbn [result_of fst]. f_equal.
    refine (proj1 (proj1 (proj2 (@deterministic_step_succeeds_on_any_detail
                           _ _ _ _ _))
                     2%nat 1%nat wait_then_click _ flow s' t _ E _) _).
    + discriminate.
    + revert E. vm_compute. now intros [= <- <- <-].
    + revert E. vm_compute. now intros [= <- <- <-].
  - revert E. vm_compute. discriminate.
Defined.

Lemma empty_plan_fails_task_witness :
  exists s',
    _process_current_task (idle_agent no_plan_world) =
    (Ok false, s',
     [EvClear BeforePlanning; EvCapture; EvCall CPlanTask true;
      EvLog LEmptyPlan]) /\
    current_plan (context s') = [] /\
    current_step_index (context s') = -1 /\
    action_history (context s') = [].
Proof.
  exact (@empty_plan_fails_task _ _ _ _ _ (idle_agent no_plan_world)
           "Desktop" no_plan_world "Desktop" [] [] no_plan_world
           eq_refl eq_refl eq_refl eq_refl eq_refl).
Defined.

Lemma cached_observation_is_reused_witness :
  analyze_current_screen false cached_agent = (Ok desktop, cached_agent, []) /\
  count is_capture
    (trace_of (analyze_current_screen true
                 (state_of (clear_cache AfterAction cached_agent)))) = 1%nat.
Proof.
  destruct (@cached_observation_is_reused _ _ _ _ cached_agent desktop eq_refl)
    as (H1 & _ & H3).
  split; [exact H1 | exact (H3 AfterAction true)].
Defined.

Lemma execute_action_never_raises_witness :
  is_known (action_type (unknown_action (F := Z) "FOO")) = false /\
  execute_action (unknown_action "FOO") (demo_agent [] smooth_world)
  = (Ok (false, "Unknown action type: unknown"), demo_agent [] smooth_world, []).
Proof.
  split; [reflexivity|].
  exact (proj1 (proj2 (@execute_action_never_raises _ _ _ _ _
                         (unknown_action "FOO") (demo_agent [] smooth_world)))
           eq_refl).
Defined.

Lemma controller_result_is_discarded_witness :
  mouse_click (Some 10) (Some 10) broken_pointer = (Ok false, broken_pointer) /\
  execute_action (click_action 10 10) (demo_agent [] broken_pointer)
  = (Ok (true, "Clicked at (10, 10)"), demo_agent [] broken_pointer,
     [EvCall (CClick (Some 10) (Some 10)) true]).
Proof.
  split; [reflexivity|].
  exact (proj1 (proj2 (@controller_result_is_discarded _ _ _ _ _
                         (click_action 10 10) (demo_agent [] broken_pointer)))
           eq_refl false broken_pointer eq_refl).
Defined.
(** ** The further properties on the scripted host *)

#[local] Existing Instance demo_planner.

Lemma parse_depends_on_upper_line_witness :
  upper (strip "Click 10 20") = upper (strip "  click 10 20 ") /\
  _parse_action "  click 10 20 " = _parse_action "Click 10 20" /\
  _parse_action (upper "Click 10 20") = _parse_action "Click 10 20" /\
  _parse_action (lower "Click 10 20") = _parse_action "Click 10 20".
Proof.
  split; [reflexivity|].
  apply (@parse_depends_on_upper_line _ demo_float "Click 10 20"
           "  click 10 20 "); [reflexivity | vm_compute; discriminate].
Defined.

Lemma parsed_click_has_coordinates_witness :
  startswith (upper (strip "click 10 twenty")) "CLICK" = true /\
  _parse_action "click 10 twenty" = unknown_action "click 10 twenty".
Proof.
  split; [reflexivity|].
  destruct (@parsed_click_has_coordinates _ demo_float "click 10 twenty" eq_refl)
    as [(p0 & p1 & p2 & rest & x & y & Hs & _ & H2 & _)|[_ H]]; [|exact H].
  assert (E : split (upper (strip "click 10 twenty")) = ["CLICK"; "10"; "TWENTY"])
    by reflexivity.
  rewrite E in Hs. injection Hs as <- <- <- <-.
  vm_compute in H2. discriminate H2.
Defined.

Lemma parsed_wait_has_duration_witness :
  startswith (upper (strip "wait a bit")) "WAIT" = true /\
  exists d,
    _parse_action "wait a bit" = wait_action d /\
    ((exists p0 tok rest f,
         split (upper (strip "wait a bit")) = p0 :: tok :: rest /\
         py_float tok = Some f /\ d = NFloat f) \/
     (d = NInt 2 /\
      forall p0 tok rest,
        split (upper (strip "wait a bit")) = p0 :: tok :: rest ->
        py_float tok = None)).
Proof.
  split; [reflexivity|].
  exact (@parsed_wait_has_duration _ demo_float "wait a bit" eq_refl).
Defined.

Lemma parsed_scroll_direction_witness :
  startswith (upper (strip "scroll to the group")) "SCROLL" = true /\
  _parse_action "scroll to the group" = scroll_action "up".
Proof.
  split; [reflexivity|].
  exact (@parsed_scroll_direction _ demo_float "scroll to the group" eq_refl).
Defined.

Lemma parsed_command_is_uppercased_witness :
  a_type (_parse_action "run ls -la") = Some "run" /\
  a_cmd (_parse_action "run ls -la") = Some "LS -LA" /\
  upper "LS -LA" = "LS -LA".
Proof.
  split; [reflexivity|]. split; [reflexivity|].
  exact (proj1 (@parsed_command_is_uppercased _ demo_float "run ls -la")
           "LS -LA" eq_refl eq_refl).
Defined.

Lemma execute_action_touches_only_the_world_witness :
  (List.length (trace_of click_run) <= 1)%nat /\
  calls_only (trace_of click_run) /\
  exists w, state_of click_run = with_world w (demo_agent [] broken_pointer).
Proof.
  apply (@execute_action_touches_only_the_world _ _ _ _ _
           (click_action 10 10) (demo_agent [] broken_pointer)
           (result_of click_run)).
  unfold click_run. apply run_eta.
Defined.

Lemma typed_message_preview_witness :
  result_of (execute_action (type_action "abcdefghijklmnopqrstuvwxyz")
               (demo_agent [] smooth_world))
  = Ok (true, "Typed text: " ++ take 20 "abcdefghijklmnopqrstuvwxyz" ++ "...") /\
  String.length (take 20 "abcdefghijklmnopqrstuvwxyz") = 20%nat.
Proof.
  refine (proj2 (@typed_message_preview _ _ _ _ _
                   (type_action "abcdefghijklmnopqrstuvwxyz")
                   (demo_agent [] smooth_world) tt smooth_world
                   eq_refl eq_refl) _).
  vm_compute. lia.
Defined.

Lemma execute_sequence_stops_at_first_failure_witness :
  exists results,
    result_of sequence_run = Ok results /\
    (List.length results <= List.length three_actions)%nat /\
    Forall (fun r => fst r = true) (removelast results) /\
    ((List.length results < List.length three_actions)%nat ->
     exists done failed,
       results = (done ++ [failed])%list /\ fst failed = false) /\
    (three_actions <> [] -> results <> []).
Proof.
  eexists. split; [vm_compute; reflexivity|].
  eapply (@execute_sequence_stops_at_first_failure _ _ _ _ _ (NInt 1)
            three_actions (demo_agent [] smooth_world)).
  vm_compute. reflexivity.
Defined.

Lemma find_element_reads_the_cache_witness :
  find_element_by_text "file" false true menu_agent
  = (Ok [mkMatched (mkTextElement "File" 10 10 40 20 90) 30 20;
         mkMatched (mkTextElement "Profile" 60 10 70 20 80) 95 20],
     menu_agent, []) /\
  count is_capture
    (trace_of (find_element_by_text "file" false true
                 (state_of (clear_cache AfterAction menu_agent)))) = 1%nat.
Proof.
  destruct (@find_element_reads_the_cache _ _ _ demo_host "file" false true
              menu_agent menu_screen eq_refl) as [H1 H2].
  split; [exact H1 | exact (H2 AfterAction)].
Defined.

Lemma find_empty_text_matches_everything_witness :
  find_element_by_text EmptyString true false menu_agent
  = (Ok (map with_center (text_elements menu_screen)), menu_agent, []).
Proof.
  exact (@find_empty_text_matches_everything _ _ _ demo_host true false
           menu_agent menu_screen menu_agent [] eq_refl).
Defined.

Lemma find_element_ignores_case_witness :
  find_element_by_text (upper "Edit") false false menu_agent
  = find_element_by_text "Edit" false false menu_agent /\
  find_element_by_text "profile" false false menu_agent
  = (Ok [mkMatched (mkTextElement "Profile" 60 10 70 20 80) 95 20],
     menu_agent, []) /\
  incl [mkMatched (mkTextElement "Profile" 60 10 70 20 80) 95 20]
    [mkMatched (mkTextElement "File" 10 10 40 20 90) 30 20;
     mkMatched (mkTextElement "Profile" 60 10 70 20 80) 95 20].
Proof.
  destruct (@find_element_ignores_case _ _ _ demo_host "Edit" false menu_agent)
    as (H1 & _ & _).
  split; [exact H1|]. split; [reflexivity|].
  exact (proj2 (proj2 (@find_element_ignores_case _ _ _ demo_host "profile"
                         false menu_agent))
           false _ _ menu_agent [] menu_agent [] eq_refl eq_refl).
Defined.

Lemma found_element_center_in_box_witness :
  exists analysis,
    analyze_current_screen false menu_agent = (Ok analysis, menu_agent, []) /\
    In (mkTextElement "Edit" 140 10 41 21 85) (text_elements analysis) /\
    (0 <= 41 -> 140 <= 160 <= 140 + 41) /\
    (0 <= 21 -> 10 <= 20 <= 10 + 21).
Proof.
  exact (@found_element_center_in_box _ _ _ demo_host "edit" false false
           menu_agent
           [mkMatched (mkTextElement "Edit" 140 10 41 21 85) 160 20]
           menu_agent []
           (mkMatched (mkTextElement "Edit" 140 10 41 21 85) 160 20)
           eq_refl (or_introl eq_refl)).
Defined.

Lemma later_step_sees_a_fresh_screen_witness :
  _cached_analysis cached_agent = Some desktop /\
  exists rest, trace_of later_step_run = EvClear BeforeStep :: EvCapture :: rest.
Proof.
  split; [reflexivity|].
  apply (@later_step_sees_a_fresh_screen _ _ _ _ _ 2%nat
           (ask 2 "pick the entry") cached_agent (result_of later_step_run)
           (state_of later_step_run)); [lia|].
  unfold later_step_run. apply run_eta.
Defined.

Lemma history_append_drops_oldest_witness :
  (List.length (seq 0 20) <= max_history)%nat /\
  (List.length (deque_append max_history (seq 0 20) 20%nat) <= max_history)%nat /\
  deque_append max_history (seq 0 20) 20%nat = (tl (seq 0 20) ++ [20%nat])%list.
Proof.
  assert (H : (List.length (seq 0 20) <= max_history)%nat)
    by (vm_compute; lia).
  split; [exact H|].
  destruct (history_append_drops_oldest (seq 0 20) 20%nat H) as (H1 & _ & H3).
  split; [exact H1 | exact (H3 eq_refl)].
Defined.

Lemma execute_plan_keeps_histories_bounded_witness :
  histories_bounded (demo_agent two_steps smooth_world) /\
  histories_bounded (state_of smooth_run).
Proof.
  assert (H : histories_bounded (demo_agent two_steps smooth_world))
    by (split; vm_compute; lia).
  split; [exact H|].
  refine (@execute_plan_keeps_histories_bounded _ _ _ _ _
            (demo_agent two_steps smooth_world) (result_of smooth_run)
            (state_of smooth_run) (trace_of smooth_run) _ H).
  unfold smooth_run. apply run_eta.
Defined.

Lemma execute_plan_keeps_cursor_in_plan_witness :
  cursor_in_plan two_steps (demo_agent two_steps retry_world) /\
  cursor_in_plan two_steps (state_of retry_run) /\
  exists step, get_current_step (context (state_of retry_run)) = Some step.
Proof.
  assert (H : cursor_in_plan two_steps (demo_agent two_steps retry_world))
    by (split; [reflexivity | vm_compute; split; [discriminate | reflexivity]]).
  split; [exact H|].
  refine (@execute_plan_keeps_cursor_in_plan _ _ _ _ _ two_steps
            (demo_agent two_steps retry_world) (result_of retry_run)
            (state_of retry_run) (trace_of retry_run) _ H).
  unfold retry_run. apply run_eta.
Defined.

Lemma execute_plan_appends_to_session_log_witness :
  exists more,
    session_log (state_of smooth_run)
    = (session_log (demo_agent two_steps smooth_world) ++ more)%list.
Proof.
  refine (@execute_plan_appends_to_session_log _ _ _ _ _
            (demo_agent two_steps smooth_world) (result_of smooth_run)
            (state_of smooth_run) (trace_of smooth_run) _).
  unfold smooth_run. apply run_eta.
Defined.

Lemma paused_agent_keeps_its_queue_witness :
  (exists s',
     agent_turn (idle_agent paused_world)
     = (Ok true, s', owner_events (idle_agent paused_world)) /\
     only_flags_differ (idle_agent paused_world) s') /\
  agent_turn (idle_agent stopped_world)
  = (Ok false, after_owner (idle_agent stopped_world),
     owner_events (idle_agent stopped_world)).
Proof.
  split.
  - exact (proj1 (@paused_agent_keeps_its_queue _ _ _ _ _
                    (idle_agent paused_world)) eq_refl eq_refl).
  - exact (proj1 (proj2 (@paused_agent_keeps_its_queue _ _ _ _ _
                           (idle_agent stopped_world)) eq_refl)).
Defined.

Lemma next_step_stays_in_plan_witness :
  exists answer s',
    next_step busy_agent = (Ok answer, s', []) /\
    current_plan (context s') = two_steps /\
    current_step_index (context s') = 1 /\
    answer = get_current_step (context s') /\ answer <> None.
Proof.
  destruct (@next_step_stays_in_plan Z string DemoWorld busy_agent)
    as (answer & s' & H1 & H2 & _ & H4 & _);
    [vm_compute; split; [discriminate | reflexivity]|].
  exists answer, s'. split; [exact H1|]. split; [exact H2|].
  apply H4. vm_compute. reflexivity.
Defined.

Lemma recent_actions_edge_cases_witness :
  Z.of_nat (List.length (get_recent_actions 2 busy_context)) = 2 /\
  Z.of_nat (List.length (get_recent_actions 5 busy_context)) = 3 /\
  get_recent_actions 0 busy_context = action_history busy_context.
Proof.
  split; [|split].
  - exact (proj1 (proj2 (recent_actions_edge_cases 2 busy_context)) eq_refl).
  - exact (proj1 (proj2 (recent_actions_edge_cases 5 busy_context)) eq_refl).
  - exact (proj2 (proj2 (recent_actions_edge_cases 0 busy_context)) eq_refl).
Defined.

Lemma parsed_steps_count_witness :
  step_lines "Click on the button" = [] /\
  _parse_steps "Click on the button" = [].
Proof.
  split; [reflexivity|].
  exact (proj2 (parsed_steps_count "Click on the button") eq_refl).
Defined.

Lemma numbered_plan_is_decision_driven_witness :
  _parse_steps numbered_text = [mkStep 1 "CLICK 10 10" []; mkStep 2 "WAIT 1" []] /\
  Forall (fun step => details step = []) (_parse_steps numbered_text).
Proof.
  split; [reflexivity|].
  apply numbered_plan_is_decision_driven.
  apply Forall_forall. intros raw Hin. apply orb_true_iff. revert raw Hin.
  apply (proj1 (forallb_forall
                  (fun raw => is_empty (strip raw) || is_step_line (strip raw))
                  (split_on newline (strip numbered_text)))).
  vm_compute. reflexivity.
Defined.

Lemma planned_steps_are_renumbered_witness :
  exists plan w',
    plan_task "demo" "Desktop" planner_world = (Ok plan, w') /\
    List.length plan = 3%nat /\
    (forall k step, nth_error plan k = Some step -> number step = Z.of_nat k + 1) /\
    (plan = [] -> get_fallback_plan "demo" "Desktop" = []).
Proof.
  eexists _, _. split; [vm_compute; reflexivity|]. split; [reflexivity|].
  eapply (@planned_steps_are_renumbered _ demo_planner "demo" "Desktop"
            planner_world).
  vm_compute. reflexivity.
Defined.

Lemma decomposition_is_never_empty_witness :
  _decompose_task "demo" no_plan_world = (Ok ["demo"], no_plan_world) /\
  ["demo"] <> [] /\
  (["demo"] = ["demo"] \/
   Forall (fun sub => is_empty sub = false /\ strip sub = sub) ["demo"]).
Proof.
  split; [reflexivity|].
  exact (@decomposition_is_never_empty _ demo_planner "demo" no_plan_world
           ["demo"] no_plan_world eq_refl).
Defined.
